(** * Cognosis: the MetaCoordinator orchestration engine

    A shallow embedding of [ai/agents/meta_coordinator.py] together with the
    part of [ai/agents/experiment_conductor.py] and [ai/agents/guardrails.py]
    that the coordinator reaches, and the properties of routing, the three
    execution strategies, synthesis and the workflow executor.  Around it:
    the conductor's other entry points, the message conversion of
    [ai/llm_provider.py], and the rate limiter, the admin key and the
    endpoints of [ai/main.py] that call the coordinator and the conductor.

    Python dictionaries whose iteration order is observable ([agent_results])
    are association lists with Python's insertion discipline; dictionaries
    that are only read by key ([context], [collected_data], the plan's
    [routing]) are [gmap string _].  Awaited calls into the outside world
    (the text-generation backend, the clock) are oracles over an abstract
    world, threaded through a state-and-exception monad that also records
    the calls made. *)

From Stdlib Require Import ZArith String List Permutation Lia.
From stdpp Require Import base option list strings pretty gmap.

Local Open Scope string_scope.
Local Open Scope Z_scope.
Local Open Scope list_scope.

(** ** Python values *)

(** The JSON-like values that travel through [context] and
    [collected_data].  A float is kept as an exact fraction. *)
#[warnings="-register-all"]
Inductive value :=
| VNone
| VBool (b : bool)
| VInt (z : Z)
| VFloat (num : Z) (den : positive)
| VStr (s : string)
| VList (l : list value)
| VDict (items : list (string * value)).

(** Python truthiness, as tested by [if x] and [x or y]. *)
Definition truthy (v : value) : bool :=
  match v with
  | VNone => false
  | VBool b => b
  | VInt z => negb (z =? 0)
  | VFloat n _ => negb (n =? 0)
  | VStr s => negb (String.eqb s "")
  | VList l => match l with [] => false | _ => true end
  | VDict d => match d with [] => false | _ => true end
  end.

(** Lists and dicts cannot be dictionary keys. *)
Definition hashable (v : value) : bool :=
  match v with
  | VList _ | VDict _ => false
  | _ => true
  end.

Definition str_truthy (s : string) : bool := negb (String.eqb s "").

(** [", ".join(xs)] and friends. *)
Fixpoint join (sep : string) (xs : list string) : string :=
  match xs with
  | [] => ""
  | [x] => x
  | x :: rest => x +:+ sep +:+ join sep rest
  end.

(** ** Insertion-ordered dictionaries

    [d[k] = v] on a Python dict: an existing key keeps its position and
    takes the new value, a new key goes to the end. *)
Section PyDict.
Context {V : Type}.

Fixpoint dict_set (k : string) (v : V) (d : list (string * V)) : list (string * V) :=
  match d with
  | [] => [(k, v)]
  | (k', v') :: rest =>
      if String.eqb k' k then (k', v) :: rest else (k', v') :: dict_set k v rest
  end.

Fixpoint dict_get (k : string) (d : list (string * V)) : option V :=
  match d with
  | [] => None
  | (k', v') :: rest => if String.eqb k' k then Some v' else dict_get k rest
  end.

Definition dict_keys (d : list (string * V)) : list string := map fst d.

Definition dict_contains (k : string) (d : list (string * V)) : bool :=
  match dict_get k d with Some _ => true | None => false end.

(** [for k, v in pairs: d[k] = v]. *)
Definition dict_set_all (pairs : list (string * V)) (d : list (string * V)) :=
  fold_left (fun acc kv => dict_set (fst kv) (snd kv) acc) pairs d.
End PyDict.

(** [d.update(o)]: the keys of [o] overwrite those of [d]. *)
Definition dict_update (d o : gmap string value) : gmap string value := o ∪ d.

(** ** Exceptions and results *)

(** An instance of [Exception], by class name and message; what
    [except Exception] does not catch (cancellation) is not modelled. *)
Record exn := Exception { exn_class : string; exn_msg : string }.

(** [str(e)]. *)
Definition str_exn (e : exn) : string := exn_msg e.

Inductive res (A : Type) :=
| Ok (a : A)
| Raise (e : exn).
Arguments Ok {A} a.
Arguments Raise {A} e.

(** ** Records of the data model *)

(** A chat message [{"role": ..., "content": ...}]. *)
Record message := Message { role : string; content : string }.

(** The arguments of [LLMProvider.chat_completion]; [model] is always the
    provider's default and is left out. The temperature is in tenths. *)
Record request := Request {
  messages : list message;
  temperature10 : Z;
  max_tokens : Z
}.

(** What [chat_completion] returns:
    [{"content": ..., "tokens_used": ..., "model": ...}]. *)
Record reply := Reply {
  reply_content : string;
  reply_tokens_used : Z;
  reply_model : string
}.

(** The ["metadata"] entry of an [ExperimentConductor.chat] result. *)
Record chat_metadata := ChatMetadata {
  meta_session_id : value;
  guardrails_passed : option bool;
  violations : option (list string)
}.

(** The dictionaries returned by [_call_agent]; every one of them has a
    ["response"], the other keys depend on the branch. *)
Record AgentResult := mkAgentResult {
  response : string;
  error : option string;
  agent : option string;
  tokens_used : option Z;
  latency_ms : option Z;
  metadata : option chat_metadata
}.

(** A routing plan as a JSON object: each of the three keys may be missing,
    and [strategy] is whatever text the backend wrote. *)
Record RoutingPlan := mkPlan {
  plan_strategy : option string;
  plan_agents : option (list string);
  plan_routing : option (gmap string string)
}.

(** The Python type of a JSON document that is not an object. *)
Inductive json_kind := KList | KStr | KInt | KFloat | KBool | KNoneType.

Definition type_name (k : json_kind) : string :=
  match k with
  | KList => "list" | KStr => "str" | KInt => "int"
  | KFloat => "float" | KBool => "bool" | KNoneType => "NoneType"
  end.

(** What [route_task] hands back: the parsed document. Objects are kept at
    the types of the plan schema (objects whose three fields hold other
    JSON types are not represented); any other document is kept by its
    kind, which is all [execute_task] can observe of it. *)
Inductive routing_json :=
| PlanObject (p : RoutingPlan)
| NonObject (k : json_kind).

(** [json.loads] on a [str]: a document, or [json.JSONDecodeError]. *)
Inductive loads_result :=
| Decoded (doc : routing_json)
| JSONDecodeError (msg : string).

(** The objects stored in the agent registry ([main.py] builds one of each
    class). Only [ExperimentConductor] has [chat] and [provide_guidance]. *)
Inductive agent_obj :=
| ExperimentConductorObj
| DataAnalystObj
| RVExpertAgentObj
| PsiScoreAIObj.

Definition class_name (o : agent_obj) : string :=
  match o with
  | ExperimentConductorObj => "ExperimentConductor"
  | DataAnalystObj => "DataAnalyst"
  | RVExpertAgentObj => "RVExpertAgent"
  | PsiScoreAIObj => "PsiScoreAI"
  end.

(** A step of a workflow template. *)
Record WorkflowStep := mkStep {
  order : Z;
  stepType : string;
  name : string;
  agentId : option string;
  config : gmap string value
}.

(** The dictionaries returned by the step handlers. *)
Record StepResult := mkStepResult {
  status : string;
  reason : option string;
  guidance : option string;
  step_message : option string;
  output_data : option (gmap string value)
}.

(** An entry of [execution_log]; a key that the entry's dictionary does not
    have is [None]. *)
Record ExecutionLogEntry := mkEntry {
  step_order : Z;
  step_name : string;
  step_type : option string;
  result : option StepResult;
  entry_error : option string;
  duration_ms : option Z;
  timestamp : string
}.

Record WorkflowRunResult := mkRun {
  run_template_id : string;
  run_user_id : string;
  run_status : string;
  steps_completed : nat;
  total_steps : nat;
  execution_log : list ExecutionLogEntry;
  collected_data : gmap string value;
  run_duration_ms : Z
}.

(** The two dictionaries [execute_task] can return. *)
Record CoordinationOutcome := mkOutcome {
  out_response : string;
  out_strategy : string;
  agents_used : list string;
  agent_results : list (string * AgentResult);
  out_duration_ms : Z;
  coordinated_at : string
}.

Inductive task_outcome :=
| Coordinated (o : CoordinationOutcome)
| Failed (resp : string) (err : string) (strategy : string).

Definition outcome_response (o : task_outcome) : string :=
  match o with
  | Coordinated c => out_response c
  | Failed r _ _ => r
  end.

Definition outcome_strategy (o : task_outcome) : string :=
  match o with
  | Coordinated c => out_strategy c
  | Failed _ _ s => s
  end.

(** ** Recorded calls

    The calls a run makes, in the order it makes them: every backend call
    with its answer, every [_call_agent] entered and returned, every
    workflow step attempted.  They are not data of the program; they let
    the properties below speak of which calls happened and when. *)

(** Where a backend call is made from. *)
Inductive call_site := SiteRouter | SiteSynthesizer | SiteConductor.

Inductive event :=
| EvChatCompletion (site : call_site) (req : request) (answer : res reply)
| EvCallAgent (agent_name task : string) (ctx : option (gmap string value))
| EvAgentReturn (agent_name : string) (r : AgentResult)
| EvStep (s : WorkflowStep).

Definition invocations (evs : list event)
    : list (string * string * option (gmap string value)) :=
  omap (fun e => match e with
                 | EvCallAgent n t c => Some (n, t, c)
                 | _ => None
                 end) evs.

Definition returned (evs : list event) : list (string * AgentResult) :=
  omap (fun e => match e with
                 | EvAgentReturn n r => Some (n, r)
                 | _ => None
                 end) evs.

Definition synth_calls (evs : list event) : list (request * res reply) :=
  omap (fun e => match e with
                 | EvChatCompletion SiteSynthesizer req r => Some (req, r)
                 | _ => None
                 end) evs.

Definition steps_attempted (evs : list event) : list WorkflowStep :=
  omap (fun e => match e with
                 | EvStep s => Some s
                 | _ => None
                 end) evs.

(** ** The outside world *)

(** Everything the coordinator awaits or imports: the text-generation
    backend, [json], [re], the clock and [str()].  The backend may raise;
    the clock and the pure library functions do not. *)
Record Platform := {
  World : Type;
  Time : Type;
  (** [self.llm.chat_completion(messages, model, temperature, max_tokens)] *)
  chat_completion : request -> World -> World * res reply;
  (** [json.loads] and [json.dumps] *)
  json_loads : string -> loads_result;
  json_dumps : gmap string value -> string;
  (** [re.search(pattern, text, re.IGNORECASE)] found a match *)
  re_search : string -> string -> bool;
  (** [time.time()], [int((t1 - t0) * 1000)] and [str(t)] *)
  time_time : World -> World * Time;
  elapsed_ms : Time -> Time -> Z;
  str_time : Time -> string;
  (** [datetime.utcnow().isoformat()] *)
  utcnow_isoformat : World -> World * string;
  (** [str()] of a value and of a dictionary, as f-strings call it *)
  str_value : value -> string;
  str_dict : gmap string value -> string
}.

Definition nl : string := String (Ascii.ascii_of_nat 10) EmptyString.

Section Coordinator.
Variable P : Platform.

(** The registry [self.agents], in insertion order. *)
Variable agents : list (string * agent_obj).

(** The two [self.system_prompt] texts (long constants of the classes). *)
Variable conductor_system_prompt : string.
Variable coordinator_system_prompt : string.

(** *** State, exceptions and recorded calls *)

Record St := mkSt {
  world : World P;
  total_coordinations : nat;  (* MetaCoordinator.total_coordinations *)
  total_interactions : nat    (* ExperimentConductor.total_interactions *)
}.

Definition M (A : Type) : Type := St -> St * list event * res A.

Definition ret {A} (a : A) : M A := fun st => (st, [], Ok a).

Definition raise {A} (e : exn) : M A := fun st => (st, [], Raise e).

Definition bind {A B} (c : M A) (k : A -> M B) : M B := fun st =>
  match c st with
  | (st1, ev1, Ok a) =>
      match k a st1 with (st2, ev2, r) => (st2, (ev1 ++ ev2)%list, r) end
  | (st1, ev1, Raise e) => (st1, ev1, Raise e)
  end.

(** [try: c  except Exception as e: h e] *)
Definition try_except {A} (c : M A) (h : exn -> M A) : M A := fun st =>
  match c st with
  | (st1, ev1, Raise e) =>
      match h e st1 with (st2, ev2, r) => (st2, (ev1 ++ ev2)%list, r) end
  | done => done
  end.

Notation "'let*' x ':=' c 'in' k" := (bind c (fun x => k))
  (at level 10, x name, c at level 100, k at level 200).

Definition emit (e : event) : M unit := fun st => (st, [e], Ok tt).

Definition with_world {A} (f : World P -> World P * A) : M A := fun st =>
  let '(w, a) := f (world st) in
  (mkSt w (total_coordinations st) (total_interactions st), [], Ok a).

(** An awaited backend call, recorded with the place it is made from. *)
Definition llm (site : call_site) (req : request) : M reply := fun st =>
  let '(w, r) := chat_completion P req (world st) in
  (mkSt w (total_coordinations st) (total_interactions st),
   [EvChatCompletion site req r], r).

Definition now : M (Time P) := with_world (time_time P).
Definition utcnow : M string := with_world (utcnow_isoformat P).

Definition incr_interactions : M unit := fun st =>
  (mkSt (world st) (total_coordinations st) (S (total_interactions st)), [], Ok tt).

Definition incr_coordinations : M unit := fun st =>
  (mkSt (world st) (S (total_coordinations st)) (total_interactions st), [], Ok tt).

(** *** guardrails.py *)

Definition PROHIBITED_PATTERNS : list string :=
  [ "\b(diagnose|cure|treat|therapy|medical|clinical)\b";
    "\b(invest|investment|financial advice|guaranteed returns)\b";
    "\b(harm|dangerous|illegal|explicit)\b";
    "\b(ssn|social security|credit card|password)\b" ].

Definition leading_phrases : list string :=
  [ "you should see"; "you will feel"; "the correct answer is"; "most people see" ].

(** [validate_agent_response]: the list of violations; ["passed"] is
    whether it is empty.  The disclaimer test only warns. *)
Definition validate_agent_response
    (resp agent_name : string) (experiment_type : value) : list string :=
  (map (fun p => "Response contains prohibited content: " +:+ p)
       (filter (fun p => Is_true (re_search P p resp)) PROHIBITED_PATTERNS)
   ++ (if String.eqb agent_name "experiment_conductor"
       then map (fun p => "Response contains leading language: " +:+ p)
                (filter (fun p => Is_true (re_search P p resp)) leading_phrases)
       else []))%list.

(** *** experiment_conductor.py *)

Definition conductor_fallback : string :=
  "I can help guide you through this experiment. Please let me know if you have any questions about the protocol or what to do next.".

Definition conductor_apology : string :=
  "I apologize, but I encountered an error. Please try again or contact support if this persists.".

(** [ExperimentConductor.chat]. Whatever the backend does, it returns. *)
Definition chat (msgs : list message) (session_id : value)
    (user_id : option string) (md : option (gmap string value)) : M AgentResult :=
  let* start_time := now in
  try_except
    (let full_messages := Message "system" conductor_system_prompt :: msgs in
     let* rep := llm SiteConductor (Request full_messages 7 500) in
     let assistant_message := reply_content rep in
     let experiment_type :=
       match md with
       | Some m => default VNone (m !! "experiment_type")
       | None => VNone
       end in
     let found :=
       validate_agent_response assistant_message "ExperimentConductor" experiment_type in
     let passed := match found with [] => true | _ => false end in
     let assistant_message :=
       if passed then assistant_message else conductor_fallback in
     let* _ := incr_interactions in
     let* t := now in
     ret (mkAgentResult assistant_message None None
            (Some (reply_tokens_used rep))
            (Some (elapsed_ms P start_time t))
            (Some (ChatMetadata session_id (Some passed) (Some found)))))
    (fun e =>
       ret (mkAgentResult conductor_apology (Some (str_exn e)) None None None
              (Some (ChatMetadata session_id None None)))).

Definition workflows : list (string * list string) :=
  [ ("remote-viewing-images",
     ["ideogram_capture"; "sketch_response"; "description_capture";
      "target_reveal"; "self_assessment"]);
    ("telepathy-emotions",
     ["emotion_selection"; "body_mapping"; "confidence_rating";
      "target_reveal"; "accuracy_check"]);
    ("card-prediction",
     ["prediction_entry"; "commitment"; "card_reveal";
      "accuracy_check"; "next_round"]) ].

(** [xs[i]] with Python's negative indices. *)
Definition py_index {A} (xs : list A) (i : Z) : res A :=
  let j := if i <? 0 then Z.of_nat (length xs) + i else i in
  if j <? 0 then Raise (Exception "IndexError" "list index out of range")
  else match nth_error xs (Z.to_nat j) with
       | Some x => Ok x
       | None => Raise (Exception "IndexError" "list index out of range")
       end.

(** [ExperimentConductor._get_next_action]: the table lookup hashes its
    key, and the index may be negative. *)
Definition _get_next_action (experiment_type : value) (current_step : Z) : res string :=
  if hashable experiment_type then
    let workflow :=
      match experiment_type with
      | VStr s => default [] (dict_get s workflows)
      | _ => []
      end in
    if current_step <? Z.of_nat (length workflow)
    then py_index workflow current_step
    else Ok "experiment_complete"
  else Raise (Exception "TypeError"
                ("unhashable type: '"
                 +:+ match experiment_type with VDict _ => "dict" | _ => "list" end
                 +:+ "'")).

Definition lift {A} (r : res A) : M A := fun st => (st, [], r).

(** [ExperimentConductor.provide_guidance]: the returned dictionary
    [{"message", "next_action", "metadata"}]. *)
Definition provide_guidance (experiment_type : value) (current_step : Z)
    (session_id : value) (user_id : string) (context : gmap string value)
    : M (gmap string value) :=
  let guidance_prompt :=
    "Provide guidance for a participant in a " +:+ str_value P experiment_type
    +:+ " experiment." +:+ nl +:+ nl
    +:+ "Current Step: " +:+ str_value P (VInt current_step) +:+ nl
    +:+ "Context: "
    +:+ (if decide (context = ∅) then "Beginning of experiment" else str_dict P context)
    +:+ nl +:+ nl
    +:+ "Provide:" +:+ nl
    +:+ "1. Clear instructions for what to do at this step" +:+ nl
    +:+ "2. What they should focus on" +:+ nl
    +:+ "3. Any important reminders" +:+ nl +:+ nl
    +:+ "Keep it concise (2-3 sentences). Be encouraging but neutral." in
  let* r := chat [Message "user" guidance_prompt] session_id (Some user_id)
              (Some {[ "experiment_type" := experiment_type;
                       "step" := VInt current_step ]}) in
  let* next_action := lift (_get_next_action experiment_type current_step) in
  ret ({[ "message" := VStr (response r);
          "next_action" := VStr next_action;
          "metadata" :=
            VDict [ ("experiment_type", experiment_type);
                    ("step", VInt current_step);
                    ("tokens_used",
                     match tokens_used r with Some n => VInt n | None => VNone end) ] ]}
       : gmap string value).

(** *** meta_coordinator.py: routing *)

Definition default_agent : string := "experiment_conductor".

Definition routing_prompt (task : string) (context : option (gmap string value)) : string :=
  "Analyze this task and determine which agent(s) should handle it:" +:+ nl +:+ nl
  +:+ "TASK: " +:+ task +:+ nl +:+ nl
  +:+ "CONTEXT: "
  +:+ match context with
      | Some c => if decide (c = ∅) then "None" else json_dumps P c
      | None => "None"
      end
  +:+ nl +:+ nl
  +:+ "Available agents: " +:+ join ", " (dict_keys agents) +:+ nl +:+ nl
  +:+ "Determine the best routing strategy and specific tasks for each agent.".

(** [MetaCoordinator.route_task]: one backend call, then [json.loads]
    guarded by [except json.JSONDecodeError]. *)
Definition route_task (task : string) (user_id : option string)
    (context : option (gmap string value)) : M routing_json :=
  let prompt := routing_prompt task context in
  let* rep := llm SiteRouter
                (Request [Message "system" coordinator_system_prompt;
                          Message "user" prompt] 2 500) in
  match json_loads P (reply_content rep) with
  | Decoded doc => ret doc
  | JSONDecodeError _ =>
      ret (PlanObject
             (mkPlan (Some "single") (Some ["experiment_conductor"])
                     (Some {[ "experiment_conductor" := prompt ]})))
  end.

(** *** meta_coordinator.py: calling one agent *)

Definition not_found_result (agent_name : string) : AgentResult :=
  mkAgentResult ("Agent '" +:+ agent_name +:+ "' not available")
                (Some "agent_not_found") None None None None.

Definition pending_result (agent_name : string) : AgentResult :=
  mkAgentResult "DataAnalyst integration pending for this task type"
                None (Some agent_name) None None None.

Definition unknown_interface_result (agent_name : string) : AgentResult :=
  mkAgentResult ("Unknown agent interface: " +:+ agent_name)
                (Some "unknown_interface") None None None None.

Definition no_attribute (o : agent_obj) (attr : string) : exn :=
  Exception "AttributeError"
    ("'" +:+ class_name o +:+ "' object has no attribute '" +:+ attr +:+ "'").

(** [MetaCoordinator._call_agent]; entering and returning are recorded. *)
Definition _call_agent (agent_name task : string) (user_id : option string)
    (session_id : value) (context : option (gmap string value)) : M AgentResult :=
  let* _ := emit (EvCallAgent agent_name task context) in
  let* r :=
    match dict_get agent_name agents with
    | None => ret (not_found_result agent_name)
    | Some obj =>
        if String.eqb agent_name "experiment_conductor" then
          match obj with
          | ExperimentConductorObj =>
              chat [Message "user" task] session_id user_id context
          | _ => raise (no_attribute obj "chat")
          end
        else if String.eqb agent_name "data_analyst" then
          ret (pending_result agent_name)
        else
          ret (unknown_interface_result agent_name)
    end in
  let* _ := emit (EvAgentReturn agent_name r) in
  ret r.

(** *** asyncio.gather

    The awaited coroutines complete in some order [sched], a permutation
    of their positions; each completion is one step against the world.
    The results come back by position.  The first coroutine to raise
    makes [gather] raise at once. *)
Definition completion_order (sched : list nat) (n : nat) : list nat :=
  if decide (sched ≡ₚ seq 0 n) then sched else seq 0 n.

Fixpoint run_scheduled {A} (cs : list (M A)) (sched : list nat)
    (slots : list (option A)) : M (list (option A)) :=
  match sched with
  | [] => ret slots
  | i :: rest =>
      match cs !! i with
      | Some c => let* r := c in run_scheduled cs rest (<[i := Some r]> slots)
      | None => run_scheduled cs rest slots
      end
  end.

Definition gather {A} (cs : list (M A)) (sched : list nat) : M (list A) :=
  let* slots := run_scheduled cs (completion_order sched (length cs))
                  (replicate (length cs) None) in
  ret (omap id slots).

(** *** meta_coordinator.py: synthesis *)

Definition synthesis_prompt (original_task : string)
    (agent_results : list (string * AgentResult)) : string :=
  let agent_responses :=
    join (nl +:+ nl)
         (map (fun kv => "**" +:+ fst kv +:+ "**: " +:+ response (snd kv)) agent_results) in
  "Synthesize these agent responses into a coherent, helpful answer:" +:+ nl +:+ nl
  +:+ "ORIGINAL TASK: " +:+ original_task +:+ nl +:+ nl
  +:+ "AGENT RESPONSES:" +:+ nl
  +:+ agent_responses +:+ nl +:+ nl
  +:+ "Create a unified response that:" +:+ nl
  +:+ "1. Addresses the original task completely" +:+ nl
  +:+ "2. Integrates insights from all agents" +:+ nl
  +:+ "3. Maintains scientific accuracy" +:+ nl
  +:+ "4. Is clear and concise" +:+ nl +:+ nl
  +:+ "Return only the synthesized response, no meta-commentary.".

Definition synthesis_request (original_task : string)
    (agent_results : list (string * AgentResult)) : request :=
  Request [Message "user" (synthesis_prompt original_task agent_results)] 5 800.

(** [MetaCoordinator._synthesize_results] *)
Definition _synthesize_results (original_task : string)
    (agent_results : list (string * AgentResult))
    (context : option (gmap string value)) : M string :=
  let* rep := llm SiteSynthesizer (synthesis_request original_task agent_results) in
  ret (reply_content rep).

(** *** meta_coordinator.py: the three strategies *)

Section Strategies.
Variable task : string.
Variable user_id : option string.
Variable session_id : value.
Variable context : option (gmap string value).
Variable agent_tasks : gmap string string.

(** [agent_tasks.get(agent_name, task)] *)
Definition agent_task_for (agent_name : string) : string :=
  default task (agent_tasks !! agent_name).

Definition run_single (agents_to_use : list string) : M (list (string * AgentResult)) :=
  let agent_name :=
    match agents_to_use with
    | first :: _ => first
    | [] => "experiment_conductor"
    end in
  let* r := _call_agent agent_name (agent_task_for agent_name)
              user_id session_id context in
  ret (dict_set agent_name r []).

Definition run_parallel (sched : list nat) (agents_to_use : list string)
    : M (list (string * AgentResult)) :=
  let tasks :=
    map (fun agent_name =>
           _call_agent agent_name (agent_task_for agent_name)
             user_id session_id context)
        agents_to_use in
  let* results := gather tasks sched in
  ret (dict_set_all (zip agents_to_use results) []).

(** [{**(context or {})}], then the guarded injection. *)
Definition enhanced_context (previous_output : option string) : gmap string value :=
  let copy := default ∅ context in
  match previous_output with
  | Some prev =>
      if str_truthy prev then <[ "previous_agent_output" := VStr prev ]> copy else copy
  | None => copy
  end.

Fixpoint run_sequential (agents_to_use : list string)
    (previous_output : option string)
    (agent_results : list (string * AgentResult))
    : M (list (string * AgentResult)) :=
  match agents_to_use with
  | [] => ret agent_results
  | agent_name :: rest =>
      let* r := _call_agent agent_name (agent_task_for agent_name)
                  user_id session_id (Some (enhanced_context previous_output)) in
      run_sequential rest (Some (response r)) (dict_set agent_name r agent_results)
  end.

(** The [if / elif / elif] over [strategy]; no branch, no results. *)
Definition run_strategy (strategy : string) (sched : list nat)
    (agents_to_use : list string) : M (list (string * AgentResult)) :=
  if String.eqb strategy "single" then run_single agents_to_use
  else if String.eqb strategy "parallel" then run_parallel sched agents_to_use
  else if String.eqb strategy "sequential" then run_sequential agents_to_use None []
  else ret [].
End Strategies.

(** *** meta_coordinator.py: execute_task *)

Definition coordination_apology : string :=
  "I encountered an error coordinating this task. Please try again.".

(** The part of [execute_task] after the plan's three fields are read:
    synthesis for more than one entry, else the first key's response. *)
Definition final_response (task : string) (context : option (gmap string value))
    (agent_results : list (string * AgentResult)) : M string :=
  if (1 <? length agent_results)%nat then
    _synthesize_results task agent_results context
  else
    match dict_keys agent_results with
    | [] => raise (Exception "IndexError" "list index out of range")
    | agent_name :: _ =>
        match dict_get agent_name agent_results with
        | Some r => ret (response r)
        | None => raise (Exception "KeyError" agent_name)
        end
    end.

(** [MetaCoordinator.execute_task]; [sched] is the order in which the
    parallel strategy's invocations happen to complete. *)
Definition execute_task (task : string) (user_id : option string)
    (session_id : value) (context : option (gmap string value))
    (sched : list nat) : M task_outcome :=
  let* start_time := now in
  try_except
    (let* routing_plan := route_task task user_id context in
     match routing_plan with
     | NonObject k =>
         raise (Exception "AttributeError"
                  ("'" +:+ type_name k +:+ "' object has no attribute 'get'"))
     | PlanObject plan =>
         let strategy := default "single" (plan_strategy plan) in
         let agents_to_use := default [] (plan_agents plan) in
         let agent_tasks := default ∅ (plan_routing plan) in
         let* agent_results :=
           run_strategy task user_id session_id context agent_tasks
             strategy sched agents_to_use in
         let* final := final_response task context agent_results in
         let* _ := incr_coordinations in
         let* t := now in
         let* stamp := utcnow in
         ret (Coordinated
                (mkOutcome final strategy agents_to_use agent_results
                           (elapsed_ms P start_time t) stamp))
     end)
    (fun e => ret (Failed coordination_apology (str_exn e) "error")).

(** *** meta_coordinator.py: the workflow executor *)

(** [MetaCoordinator._load_workflow_template]: for now a fixed template. *)
Definition mock_template : list WorkflowStep :=
  [ mkStep 0 "participant_guidance" "Introduction" (Some "experiment_conductor") ∅ ].

Definition _load_workflow_template (template_id : string) (w : World P)
    : World P * res (list WorkflowStep) :=
  (w, Ok mock_template).

(** An awaited call that may raise and records nothing. *)
Definition await {A} (f : World P -> World P * res A) : M A := fun st =>
  let '(w, r) := f (world st) in
  (mkSt w (total_coordinations st) (total_interactions st), [], r).

Definition _execute_target_generation (step : WorkflowStep)
    (data : gmap string value) : M StepResult :=
  let* t := now in
  ret (mkStepResult "completed" None None None
         (Some {[ "target_hash" := VStr ("mock_hash_" +:+ str_time P t);
                  "target_type" := VStr "image" ]})).

Definition _execute_guidance_step (step : WorkflowStep) (agent_id user_id : string)
    (data : gmap string value) : M StepResult :=
  match dict_get agent_id agents with
  | Some obj =>
      match obj with
      | ExperimentConductorObj =>
          let* g := provide_guidance
                      (default (VStr "unknown") (data !! "experiment_type"))
                      (order step)
                      (default (VStr "") (data !! "session_id"))
                      user_id data in
          let shown :=
            match g !! "message" with
            | Some (VStr m) => m
            | _ => ""
            end in
          ret (mkStepResult "completed" None (Some shown) None (Some g))
      | _ => raise (no_attribute obj "provide_guidance")
      end
  | None => ret (mkStepResult "agent_not_found" None None None None)
  end.

Definition _execute_data_capture (step : WorkflowStep)
    (data : gmap string value) : M StepResult :=
  ret (mkStepResult "waiting_for_input" None None
         (Some "Waiting for participant response") None).

Definition _execute_ai_scoring (step : WorkflowStep)
    (data : gmap string value) : M StepResult :=
  let* stamp := utcnow in
  ret (mkStepResult "completed" None None None
         (Some {[ "score" := VFloat 3 4; "scored_at" := VStr stamp ]})).

Definition _execute_blockchain_commit (step : WorkflowStep)
    (data : gmap string value) : M StepResult :=
  let* t := now in
  ret (mkStepResult "completed" None None None
         (Some {[ "commitment_hash" := VStr ("mock_commitment_" +:+ str_time P t) ]})).

(** The [if / elif] chain over [step["stepType"]]. *)
Definition dispatch_step (step : WorkflowStep) (user_id : string)
    (collected : gmap string value) : M StepResult :=
  if String.eqb (stepType step) "target_generation" then
    _execute_target_generation step collected
  else if String.eqb (stepType step) "participant_guidance" then
    let agent_id := default "experiment_conductor" (agentId step) in
    _execute_guidance_step step agent_id user_id collected
  else if String.eqb (stepType step) "data_capture" then
    _execute_data_capture step collected
  else if String.eqb (stepType step) "ai_scoring" then
    _execute_ai_scoring step collected
  else if String.eqb (stepType step) "blockchain_commit" then
    _execute_blockchain_commit step collected
  else
    ret (mkStepResult "skipped" (Some "unknown_step_type") None None None).

(** [if result.get("output_data"): collected_data.update(...)] *)
Definition collect (collected : gmap string value) (r : StepResult) : gmap string value :=
  match output_data r with
  | Some o => if decide (o = ∅) then collected else dict_update collected o
  | None => collected
  end.

Definition success_entry (step : WorkflowStep) (r : StepResult)
    (ms : Z) (stamp : string) : ExecutionLogEntry :=
  mkEntry (order step) (name step) (Some (stepType step)) (Some r) None (Some ms) stamp.

Definition failure_entry (step : WorkflowStep) (e : exn) (stamp : string)
    : ExecutionLogEntry :=
  mkEntry (order step) (name step) None None (Some (str_exn e)) None stamp.

(** The loop variables of [execute_workflow]. *)
Record loop_state := mkLoop {
  loop_log : list ExecutionLogEntry;
  loop_data : gmap string value;
  current_step : nat
}.

(** One iteration: the [try] body, or the [except] branch, which breaks
    ([false]). *)
Definition workflow_step (step : WorkflowStep) (user_id : string)
    (ls : loop_state) : M (loop_state * bool) :=
  let* _ := emit (EvStep step) in
  let* step_start := now in
  try_except
    (let* r := dispatch_step step user_id (loop_data ls) in
     let* t := now in
     let* stamp := utcnow in
     ret (mkLoop (loop_log ls ++ [success_entry step r (elapsed_ms P step_start t) stamp])
                 (collect (loop_data ls) r)
                 (S (current_step ls)),
          true))
    (fun e =>
       let* stamp := utcnow in
       ret (mkLoop (loop_log ls ++ [failure_entry step e stamp])
                   (loop_data ls) (current_step ls),
            false)).

Fixpoint workflow_loop (steps : list WorkflowStep) (user_id : string)
    (ls : loop_state) : M loop_state :=
  match steps with
  | [] => ret ls
  | step :: rest =>
      let* next := workflow_step step user_id ls in
      if snd next then workflow_loop rest user_id (fst next) else ret (fst next)
  end.

(** [MetaCoordinator.execute_workflow], over the template source: what
    [_load_workflow_template] is to become once it fetches templates. *)
Definition execute_workflow_from
    (load : string -> World P -> World P * res (list WorkflowStep))
    (template_id user_id : string) (initial_data : option (gmap string value))
    : M WorkflowRunResult :=
  let* start_time := now in
  let* workflow_steps := await (load template_id) in
  let* ls := workflow_loop workflow_steps user_id
               (mkLoop [] (default ∅ initial_data) 0%nat) in
  let* t := now in
  ret (mkRun template_id user_id
         (if (current_step ls =? length workflow_steps)%nat then "completed" else "failed")
         (current_step ls) (length workflow_steps)
         (loop_log ls) (loop_data ls) (elapsed_ms P start_time t)).

Definition execute_workflow := execute_workflow_from _load_workflow_template.

End Coordinator.

Arguments ret {P A} a _.
Arguments raise {P A} e _.
Arguments bind {P A B} c k _.
Arguments try_except {P A} c h _.
Arguments lift {P A} r _.

(** * Vocabulary of the properties *)

(** The registry is wired as [main.py] wires it when the name
    ["experiment_conductor"], if registered at all, holds an
    [ExperimentConductor]. *)
Definition wired (agents : list (string * agent_obj)) : bool :=
  match dict_get "experiment_conductor" agents with
  | Some ExperimentConductorObj | None => true
  | Some _ => false
  end.

(** The registry of [main.py]. *)
Definition main_agents : list (string * agent_obj) :=
  [ ("experiment_conductor", ExperimentConductorObj);
    ("data_analyst", DataAnalystObj);
    ("rv_expert", RVExpertAgentObj);
    ("psi_score_ai", PsiScoreAIObj) ].

Section Readings.
Context {P : Platform}.

(** The state after a clock reading, and the reading. *)
Definition tick (st : St P) : St P :=
  mkSt P (fst (time_time P (world P st)))
       (total_coordinations P st) (total_interactions P st).

Definition reading (st : St P) : Time P := snd (time_time P (world P st)).

(** The state after [datetime.utcnow()], and the text it gave. *)
Definition tock (st : St P) : St P :=
  mkSt P (fst (utcnow_isoformat P (world P st)))
       (total_coordinations P st) (total_interactions P st).

Definition stamp (st : St P) : string := snd (utcnow_isoformat P (world P st)).
End Readings.

Section States.
Variable P : Platform.

(** The state once an awaited call has moved the world to [w]. *)
Definition set_world (st : St P) (w : World P) : St P :=
  mkSt P w (total_coordinations P st) (total_interactions P st).

(** The state after [self.total_coordinations += 1]. *)
Definition counted (st : St P) : St P :=
  mkSt P (world P st) (S (total_coordinations P st)) (total_interactions P st).
End States.

(** A run that only talks to the backend from inside the conductor. *)
Definition conductor_only (evs : list event) : Prop :=
  invocations evs = [] /\ returned evs = [] /\ synth_calls evs = []
  /\ steps_attempted evs = [].

(** The calls recorded by one [_call_agent] that returned [r], with
    [inner] what the agent did in between. *)
Definition call_events (agent_name task : string) (ctx : option (gmap string value))
    (inner : list event) (r : AgentResult) : list event :=
  EvCallAgent agent_name task ctx :: inner ++ [EvAgentReturn agent_name r].

(** The agents a strategy invokes, in plan order. *)
Definition invoked (strategy : string) (agents_to_use : list string) : list string :=
  if String.eqb strategy "single" then
    [match agents_to_use with first :: _ => first | [] => "experiment_conductor" end]
  else if String.eqb strategy "parallel" then agents_to_use
  else if String.eqb strategy "sequential" then agents_to_use
  else [].

(** An agent that is not registered got the not-found result. *)
Definition answers_absent (agents : list (string * agent_obj))
    (p : string * AgentResult) : Prop :=
  dict_get (fst p) agents = None -> snd p = not_found_result (fst p).

(** What an entry of the log can be for a step: the [try] body's
    dictionary, or the [except] branch's. *)
Definition logged (step : WorkflowStep) (entry : ExecutionLogEntry) : Prop :=
  (exists r ms stamp, entry = success_entry step r ms stamp)
  \/ (exists e stamp, entry = failure_entry step e stamp).

Definition logged_success (step : WorkflowStep) (entry : ExecutionLogEntry) : Prop :=
  exists r ms stamp, entry = success_entry step r ms stamp.

(** The loop variables before the first step. *)
Definition initial_loop (initial_data : option (gmap string value)) : loop_state :=
  mkLoop [] (default ∅ initial_data) 0%nat.

(** The keys of [ks] not yet in [seen], each at its first occurrence. *)
Fixpoint fresh_keys (seen ks : list string) : list string :=
  match ks with
  | [] => []
  | k :: rest =>
      if existsb (String.eqb k) seen then fresh_keys seen rest
      else k :: fresh_keys (seen ++ [k]) rest
  end.

(** A list of names without its repetitions, in order of first occurrence. *)
Definition first_occurrences (ks : list string) : list string := fresh_keys [] ks.

(** What a sequential run records: one block per agent, in plan order,
    each started with the context built from the previous response. *)
Inductive sequential_trace (task_for : string -> string)
    (ctx_for : option string -> gmap string value)
    : option string -> list string -> list event -> list (string * AgentResult) -> Prop :=
| seq_done prev : sequential_trace task_for ctx_for prev [] [] []
| seq_next prev a rest inner r evs pairs :
    conductor_only inner ->
    sequential_trace task_for ctx_for (Some (response r)) rest evs pairs ->
    sequential_trace task_for ctx_for prev (a :: rest)
      (call_events a (task_for a) (Some (ctx_for prev)) inner r ++ evs)
      ((a, r) :: pairs).

(** The result slots of [gather] after the writes [ws], in the order the
    coroutines completed. *)
Definition fill {A} (slots : list (option A)) (ws : list (nat * A)) : list (option A) :=
  fold_left (fun s w => <[fst w := Some (snd w)]> s) ws slots.

(** The agent whose position a write belongs to. *)
Definition label (names : list string) (w : nat * AgentResult)
    : option (string * AgentResult) :=
  match names !! fst w with
  | Some n => Some (n, snd w)
  | None => None
  end.

(** What a run of the scheduled invocations records: one block per
    completed position, in completion order. *)
Inductive completion_trace (names : list string) (task_for : string -> string)
    (ctx : option (gmap string value))
    : list nat -> list event -> list (nat * AgentResult) -> Prop :=
| completed_none : completion_trace names task_for ctx [] [] []
| completed_next i n rest inner r evs ws :
    names !! i = Some n ->
    conductor_only inner ->
    completion_trace names task_for ctx rest evs ws ->
    completion_trace names task_for ctx (i :: rest)
      (call_events n (task_for n) ctx inner r ++ evs) ((i, r) :: ws).

Section Requests.
Variable P : Platform.
Variable agents : list (string * agent_obj).
Variable cprompt : string.
Variable mprompt : string.

(** The request [route_task] sends. *)
Definition routing_request (task : string) (context : option (gmap string value))
    : request :=
  Request [Message "system" mprompt;
           Message "user" (routing_prompt P agents task context)] 2 500.

(** The plan [route_task] falls back to. *)
Definition fallback_plan (task : string) (context : option (gmap string value))
    : RoutingPlan :=
  mkPlan (Some "single") (Some [default_agent])
         (Some {[ default_agent := routing_prompt P agents task context ]}).

(** The outcome of a run that took no exception. *)
Definition coordinated (plan : RoutingPlan) (res : list (string * AgentResult))
    (final : string) (st0 st3 : St P) : task_outcome :=
  Coordinated
    (mkOutcome final (default "single" (plan_strategy plan))
       (default [] (plan_agents plan)) res
       (elapsed_ms P (reading st0) (reading (counted P st3)))
       (stamp (tick (counted P st3)))).

(** The outcome the [except] branch builds. *)
Definition failed (e : exn) : task_outcome :=
  Failed coordination_apology (str_exn e) "error".

Section Coroutines.
Variable task : string.
Variable user_id : option string.
Variable session_id : value.
Variable context : option (gmap string value).
Variable agent_tasks : gmap string string.

(** The coroutine the parallel strategy creates for an agent. *)
Definition parallel_call (agent_name : string) : M P AgentResult :=
  _call_agent P agents cprompt agent_name (agent_task_for task agent_tasks agent_name)
    user_id session_id context.
End Coroutines.
End Requests.

(** * A scripted platform

    A backend that hands out the answers of a script, one per call, and is
    unreachable once the script is used up; a clock that stands still; a
    regular-expression search that finds nothing; [json.loads] given by a
    table.  It runs the definitions on concrete inputs. *)

Definition unreachable : exn := Exception "ConnectionError" "backend unreachable".

Definition show_value (v : value) : string :=
  match v with
  | VNone => "None"
  | VBool true => "True"
  | VBool false => "False"
  | VInt z => pretty z
  | VFloat _ _ => "0.75"
  | VStr s => s
  | VList [] => "[]"
  | VList _ => "[...]"
  | VDict [] => "{}"
  | VDict _ => "{...}"
  end.

Definition scripted (loads : string -> loads_result) : Platform := {|
  World := list (res reply);
  Time := Z;
  chat_completion := fun _ w =>
    match w with
    | r :: rest => (rest, r)
    | [] => ([], Raise unreachable)
    end;
  json_loads := loads;
  json_dumps := fun _ => "{...}";
  re_search := fun _ _ => false;
  time_time := fun w => (w, 0);
  elapsed_ms := fun t0 t1 => (t1 - t0) * 1000;
  str_time := fun _ => "0.0";
  utcnow_isoformat := fun w => (w, "2025-01-01T00:00:00");
  str_value := show_value;
  str_dict := fun _ => "{...}"
|}.

(** No document decodes. *)
Definition loads_nothing (s : string) : loads_result :=
  JSONDecodeError "Expecting value: line 1 column 1 (char 0)".

Definition start (P : Platform) (w : World P) : St P := mkSt P w 0 0.

Definition capture_step : WorkflowStep :=
  mkStep 0 "data_capture" "Capture" None ∅.

(** A guidance step addressed to the analyst, which has no
    [provide_guidance]. *)
Definition analyst_guidance_step : WorkflowStep :=
  mkStep 1 "participant_guidance" "Guide" (Some "data_analyst") ∅.

Definition scoring_step : WorkflowStep :=
  mkStep 2 "ai_scoring" "Score" None ∅.

Definition three_steps (tid : string) (w : list (res reply))
    : list (res reply) * res (list WorkflowStep) :=
  (w, Ok [capture_step; analyst_guidance_step; scoring_step]).

Definition dq : string := String (Ascii.ascii_of_nat 34) EmptyString.

Definition quoted (s : string) : string := dq +:+ s +:+ dq.

(** The JSON text of a plan with a strategy and agents and no routing. *)
Definition plan_text (strategy : string) (names : list string) : string :=
  "{" +:+ quoted "strategy" +:+ ": " +:+ quoted strategy +:+ ", "
  +:+ quoted "agents" +:+ ": [" +:+ join ", " (map quoted names) +:+ "]}".

Definition plan_of (strategy : string) (names : list string) : RoutingPlan :=
  mkPlan (Some strategy) (Some names) None.

(** The plans used below. *)
Definition known_plans : list (string * list string) :=
  [ ("sequential", ["experiment_conductor"; "data_analyst"]);
    ("sequential", ["data_analyst"; "data_analyst"]);
    ("parallel", ["experiment_conductor"; "ghost"; "data_analyst"]);
    ("iterative", ["experiment_conductor"; "data_analyst"]) ].

(** [json.loads] on the documents used below: the texts of the known plans,
    the empty array, and text that is not JSON at all. *)
Definition loads_table (s : string) : loads_result :=
  if String.eqb s "[]" then Decoded (NonObject KList)
  else
    match find (fun p => String.eqb s (plan_text (fst p) (snd p))) known_plans with
    | Some p => Decoded (PlanObject (plan_of (fst p) (snd p)))
    | None => JSONDecodeError "Expecting value: line 1 column 1 (char 0)"
    end.

Definition demo : Platform := scripted loads_table.

Definition says (text : string) : res reply := Ok (Reply text 10 "gemini-2.0-flash").

Definition run_demo (replies : list (res reply)) (sched : list nat) :=
  execute_task demo main_agents "" "" "hello" None VNone None sched (start demo replies).

Definition conductor_then_analyst : string :=
  plan_text "sequential" ["experiment_conductor"; "data_analyst"].

Definition analyst_twice : string :=
  plan_text "sequential" ["data_analyst"; "data_analyst"].

Definition fan_out : string :=
  plan_text "parallel" ["experiment_conductor"; "ghost"; "data_analyst"].

(** * Around the coordinator

    The rest of [meta_coordinator.py], the other entry points of
    [experiment_conductor.py], what [guardrails.py] and [llm_provider.py]
    give them, and the endpoints of [main.py] that call them. *)

(** What an endpoint gives back: its return value, or the response FastAPI
    makes of a raised [HTTPException]. *)
Inductive http (A : Type) :=
| Respond (a : A)
| HTTPError (status_code : Z) (detail : string).
Arguments Respond {A} a.
Arguments HTTPError {A} status_code detail.

(** [HTTPException(status_code, detail)] as an exception; its [str()] is
    the status code, a colon and the detail. *)
Definition http_exception (status_code : Z) (detail : string) : exn :=
  Exception "HTTPException" (pretty status_code +:+ ": " +:+ detail).

(** [needle in hay] on strings. *)
Fixpoint contains (needle hay : string) : bool :=
  if String.prefix needle hay then true
  else match hay with
       | EmptyString => false
       | String _ rest => contains needle rest
       end.

(** *** guardrails.py *)

Definition REQUIRED_DISCLAIMER_experimental : string :=
  "This is an experimental research platform. Results are for research purposes only.".

(** *** llm_provider.py: GeminiProvider *)

(** An entry of the Gemini chat history, [{"role": ..., "parts": [...]}]. *)
Record gemini_turn := GeminiTurn { turn_role : string; turn_parts : list string }.

(** The loop of [GeminiProvider._convert_messages], over its three
    variables. A message of another role is passed over. *)
Fixpoint convert_loop (msgs : list message) (system_instruction : option string)
    (history : list gemini_turn) (current_message : option string)
    : option string * list gemini_turn * option string :=
  match msgs with
  | [] => (system_instruction, history, current_message)
  | msg :: rest =>
      if String.eqb (role msg) "system" then
        convert_loop rest (Some (content msg)) history current_message
      else if String.eqb (role msg) "user" then
        let history :=
          match last history with
          | Some t =>
              if String.eqb (turn_role t) "model"
              then history ++ [GeminiTurn "user" [content msg]]
              else history ++ [GeminiTurn "user" [content msg]]
          | None => history
          end in
        convert_loop rest system_instruction history (Some (content msg))
      else if String.eqb (role msg) "assistant" then
        convert_loop rest system_instruction
          (history ++ [GeminiTurn "model" [content msg]]) current_message
      else convert_loop rest system_instruction history current_message
  end.

Definition _convert_messages (msgs : list message)
    : option string * list gemini_turn * option string :=
  convert_loop msgs None [] None.

(** What [GeminiProvider.chat_completion] sends:
    [current_message or "Hello"]. *)
Definition gemini_prompt (msgs : list message) : string :=
  match snd (_convert_messages msgs) with
  | Some m => if str_truthy m then m else "Hello"
  | None => "Hello"
  end.

(** *** main.py: rate limiting *)

Definition RATE_LIMIT_MAX_REQUESTS : nat := 30.

Section RateLimit.
Context {T : Type}.

(** [now - ts < RATE_LIMIT_WINDOW] *)
Variable in_window : T -> T -> bool.

(** [check_rate_limit(client_id)] at time [now], over [rate_limit_store]:
    the store afterwards and the answer. *)
Definition check_rate_limit (now : T) (client_id : string)
    (rate_limit_store : gmap string (list T)) : gmap string (list T) * bool :=
  let kept :=
    filter (fun ts => Is_true (in_window now ts))
           (default [] (rate_limit_store !! client_id)) in
  let store := <[ client_id := kept ]> rate_limit_store in
  if (RATE_LIMIT_MAX_REQUESTS <=? length kept)%nat then (store, false)
  else (<[ client_id := kept ++ [now] ]> store, true).
End RateLimit.

(** *** main.py: requests and responses *)

Record AgentChatRequest := mkChatRequest {
  req_agent_name : string;
  req_session_id : option string;
  req_user_id : option string;
  req_messages : list message;
  req_metadata : option (gmap string value)
}.

Record AgentChatResponse := mkChatResponse {
  resp_agent_name : string;
  resp_response : string;
  resp_metadata : option chat_metadata;
  resp_guardrails_passed : bool;
  guardrail_flags : option (list string);
  resp_tokens_used : option Z;
  resp_latency_ms : option Z
}.



(** What [get_status] of the coordinator and of the conductor return. *)
Record agent_status := mkStatus {
  status_name : string;
  status_state : string;
  status_model : string;
  status_total : nat;
  available_agents : option (list string);
  capabilities : list string
}.

(** [None] and a text as values. *)
Definition optional_text (s : option string) : value :=
  match s with
  | Some t => VStr t
  | None => VNone
  end.

Section Service.
Variable P : Platform.
Variable agents : list (string * agent_obj).
Variable conductor_system_prompt : string.
Variable coordinator_system_prompt : string.

(** [self.model], the provider's default model. *)
Variable model_name : string.

(** The environment's [ADMIN_API_KEY], empty when unset. *)
Variable ADMIN_API_KEY : string.

Notation "'let*' x ':=' c 'in' k" := (bind c (fun x => k))
  (at level 10, x name, c at level 100, k at level 200).

(** [validate_message(message, context)]: the violations found. *)
Definition validate_message (msg : string) (context : option (gmap string value))
    : list string :=
  (map (fun p => "Prohibited content detected: " +:+ p)
       (filter (fun p => Is_true (re_search P p msg)) PROHIBITED_PATTERNS)
   ++ (match context with
       | Some c =>
           if truthy (default VNone (c !! "contains_pii"))
           then ["Message may contain personally identifiable information"]
           else []
       | None => []
       end)
   ++ (if 10000 <? Z.of_nat (String.length msg)
       then ["Message exceeds maximum length (10,000 characters)"]
       else []))%list.

(** [MetaCoordinator.get_status] *)
Definition get_status : M P agent_status := fun st =>
  (st, [],
   Ok (mkStatus "MetaCoordinator" "active" model_name (total_coordinations P st)
         (Some (dict_keys agents))
         ["multi_agent_coordination"; "intelligent_task_routing";
          "workflow_execution"; "response_synthesis"])).

(** [ExperimentConductor.get_status] *)
Definition conductor_get_status : M P agent_status := fun st =>
  (st, [],
   Ok (mkStatus "ExperimentConductor" "active" model_name (total_interactions P st)
         None
         ["experiment_guidance"; "participant_support"; "protocol_explanation"])).

(** [ExperimentConductor.explain_experiment] *)
Definition explain_experiment (experiment_type : string) : M P string :=
  let prompt :=
    "Explain the " +:+ experiment_type +:+ " experiment to a new participant."
    +:+ nl +:+ nl
    +:+ "Include:" +:+ nl
    +:+ "1. What the experiment tests" +:+ nl
    +:+ "2. What they will be asked to do" +:+ nl
    +:+ "3. How long it typically takes" +:+ nl
    +:+ "4. What happens with their data" +:+ nl +:+ nl
    +:+ "Be clear, encouraging, and scientifically accurate. Include the experimental disclaimer."
    +:+ nl
    +:+ "Keep it concise (4-5 sentences)." in
  let* r := chat P conductor_system_prompt [Message "user" prompt] VNone None
              (Some {[ "experiment_type" := VStr experiment_type ]}) in
  let explanation := response r in
  ret (if contains REQUIRED_DISCLAIMER_experimental explanation then explanation
       else explanation +:+ nl +:+ nl +:+ REQUIRED_DISCLAIMER_experimental).

(** [verify_admin_key(x_admin_key)]: with no key configured everybody
    passes. *)
Definition verify_admin_key (x_admin_key : option string) : res bool :=
  if negb (str_truthy ADMIN_API_KEY) then Ok true
  else if bool_decide (x_admin_key = Some ADMIN_API_KEY) then Ok true
  else Raise (http_exception 403 "Invalid admin API key").


(** [POST /meta/workflow], behind [Depends(verify_admin_key)]. *)
Definition execute_workflow_endpoint (x_admin_key : option string)
    (template_id user_id : string) (initial_data : option (gmap string value))
    : M P (http WorkflowRunResult) :=
  match verify_admin_key x_admin_key with
  | Raise _ => ret (HTTPError 403 "Invalid admin API key")
  | Ok _ =>
      try_except
        (let* result :=
           execute_workflow P agents conductor_system_prompt
             template_id user_id initial_data in
         ret (Respond result))
        (fun e => ret (HTTPError 500 (str_exn e)))
  end.

(** [GET /meta/status] *)
Definition meta_status : M P agent_status := get_status.

Definition refusal : string :=
  "I cannot process that request as it violates safety guidelines.".

(** [POST /agent/chat] *)
Definition agent_chat (request : AgentChatRequest) : M P (http AgentChatResponse) :=
  try_except
    (let user_messages :=
       filter (fun msg => role msg = "user") (req_messages request) in
     let rejected :=
       match last user_messages with
       | Some last_message =>
           match validate_message (content last_message) None with
           | [] => None
           | found => Some found
           end
       | None => None
       end in
     match rejected with
     | Some found =>
         ret (Respond (mkChatResponse (req_agent_name request) refusal None false
                         (Some found) None None))
     | None =>
         if String.eqb (req_agent_name request) "experiment_conductor" then
           let* r := chat P conductor_system_prompt (req_messages request)
                       (optional_text (req_session_id request))
                       (req_user_id request) (req_metadata request) in
           ret (Respond (mkChatResponse (req_agent_name request) (response r)
                           (metadata r) true None (tokens_used r) (latency_ms r)))
         else
           raise (http_exception 404
                    ("Agent '" +:+ req_agent_name request +:+ "' not found"))
     end)
    (fun e => ret (HTTPError 500 "An error occurred processing your request")).

End Service.

(** ** Vocabulary of the further properties *)

(** A computation that leaves [total_coordinations] as it found it. *)
Definition keeps_coordinations {P : Platform} {A : Type} (c : M P A) : Prop :=
  forall st st' evs r,
    c st = (st', evs, r) -> total_coordinations P st' = total_coordinations P st.

(** The backend calls a run made, whatever the place. *)
Definition backend_calls (evs : list event) : list (call_site * request * res reply) :=
  omap (fun e => match e with
                 | EvChatCompletion site req r => Some (site, req, r)
                 | _ => None
                 end) evs.

(** [s] occurs in [t]. *)
Definition occurs_in (s t : string) : Prop :=
  exists before after, t = before +:+ s +:+ after.

(** The action list [_get_next_action] finds for an experiment type. *)
Definition workflow_of (experiment_type : value) : list string :=
  match experiment_type with
  | VStr s => default [] (dict_get s workflows)
  | _ => []
  end.

(** The request [ExperimentConductor.chat] sends. *)
Definition conductor_request (system_prompt : string) (msgs : list message) : request :=
  Request (Message "system" system_prompt :: msgs) 7 500.



(** ** More of the scripted platform *)

(** A scripted platform with a search that knows two phrases: a pattern
    that names one of them matches a text that holds it. *)
Definition watched_phrases : list string := ["password"; "you should see"].

Definition watchful : Platform := {|
  World := list (res reply);
  Time := Z;
  chat_completion := fun _ w =>
    match w with
    | r :: rest => (rest, r)
    | [] => ([], Raise unreachable)
    end;
  json_loads := loads_table;
  json_dumps := fun _ => "{...}";
  re_search := fun pattern text =>
    existsb (fun phrase => contains phrase pattern && contains phrase text)
            watched_phrases;
  time_time := fun w => (w, 0);
  elapsed_ms := fun t0 t1 => (t1 - t0) * 1000;
  str_time := fun _ => "0.0";
  utcnow_isoformat := fun w => (w, "2025-01-01T00:00:00");
  str_value := show_value;
  str_dict := fun _ => "{...}"
|}.

(** Two more plans: a parallel plan that names nobody, and a single plan
    that names two agents. *)
Definition more_plans : list (string * list string) :=
  [ ("parallel", []);
    ("single", ["data_analyst"; "experiment_conductor"]) ].

Definition loads_more (s : string) : loads_result :=
  match find (fun p => String.eqb s (plan_text (fst p) (snd p))) more_plans with
  | Some p => Decoded (PlanObject (plan_of (fst p) (snd p)))
  | None => loads_table s
  end.

Definition demo_more : Platform := scripted loads_more.




(** [now - ts < RATE_LIMIT_WINDOW] with the clock in whole seconds. *)
Definition RATE_LIMIT_WINDOW : Z := 60.

Definition within_window (now ts : Z) : bool := now - ts <? RATE_LIMIT_WINDOW.

(** * Properties *)

Section Monad.
Context {P : Platform}.

Lemma now_eq (st : St P) : now P st = (tick st, [], Ok (reading st)).
Proof.
  unfold now, with_world, tick, reading.
  destruct (time_time P (world P st)); reflexivity.
Qed.

Lemma utcnow_eq (st : St P) : utcnow P st = (tock st, [], Ok (stamp st)).
Proof.
  unfold utcnow, with_world, tock, stamp.
  destruct (utcnow_isoformat P (world P st)); reflexivity.
Qed.

Lemma bind_ok {A B} (c : M P A) (k : A -> M P B) st st1 ev1 a st2 ev2 r :
  c st = (st1, ev1, Ok a) ->
  k a st1 = (st2, ev2, r) ->
  bind c k st = (st2, ev1 ++ ev2, r).
Proof. intros Hc Hk. unfold bind. rewrite Hc, Hk. reflexivity. Qed.

Lemma bind_raise {A B} (c : M P A) (k : A -> M P B) st st1 ev1 e :
  c st = (st1, ev1, Raise e) ->
  bind c k st = (st1, ev1, Raise e).
Proof. intros Hc. unfold bind. rewrite Hc. reflexivity. Qed.

Lemma try_ok {A} (c : M P A) h st st1 ev1 a :
  c st = (st1, ev1, Ok a) ->
  try_except c h st = (st1, ev1, Ok a).
Proof. intros Hc. unfold try_except. rewrite Hc. reflexivity. Qed.

Lemma try_raise {A} (c : M P A) h st st1 ev1 e st2 ev2 r :
  c st = (st1, ev1, Raise e) ->
  h e st1 = (st2, ev2, r) ->
  try_except c h st = (st2, ev1 ++ ev2, r).
Proof. intros Hc Hh. unfold try_except. rewrite Hc, Hh. reflexivity. Qed.

(** Every computation ends in a state, a list of calls and a result. *)
Lemma run_inv {A} (c : M P A) st : exists st' evs r, c st = (st', evs, r).
Proof. destruct (c st) as [[st' evs] r]. eauto. Qed.
End Monad.

Lemma invocations_app (a b : list event) :
  invocations (a ++ b) = invocations a ++ invocations b.
Proof. apply omap_app. Qed.

Lemma returned_app (a b : list event) : returned (a ++ b) = returned a ++ returned b.
Proof. apply omap_app. Qed.

Lemma synth_calls_app (a b : list event) :
  synth_calls (a ++ b) = synth_calls a ++ synth_calls b.
Proof. apply omap_app. Qed.

Lemma steps_attempted_app (a b : list event) :
  steps_attempted (a ++ b) = steps_attempted a ++ steps_attempted b.
Proof. apply omap_app. Qed.

Lemma conductor_only_nil : conductor_only [].
Proof. repeat split. Qed.

Lemma conductor_only_app a b :
  conductor_only a -> conductor_only b -> conductor_only (a ++ b).
Proof.
  intros (?&?&?&?) (?&?&?&?). unfold conductor_only.
  rewrite invocations_app, returned_app, synth_calls_app, steps_attempted_app.
  repeat split; apply app_nil; split; assumption.
Qed.

Section ConductorFacts.
Variable P : Platform.
Variable agents : list (string * agent_obj).
Variable cprompt : string.

(** [ExperimentConductor.chat] never raises. *)
Lemma chat_returns msgs sid uid md (st : St P) :
  exists st' evs r,
    chat P cprompt msgs sid uid md st = (st', evs, Ok r) /\ conductor_only evs.
Proof.
  unfold chat.
  destruct (run_inv (llm P SiteConductor
              (Request (Message "system" cprompt :: msgs) 7 500)) (tick st))
    as (st1 & ev1 & r1 & Hllm).
  assert (Hev : conductor_only ev1).
  { unfold llm in Hllm.
    destruct (chat_completion P _ _) as [w r]. inversion Hllm; subst.
    repeat split. }
  destruct r1 as [rep|e].
  - eexists _, _, _. split.
    + eapply bind_ok; [apply now_eq|].
      apply try_ok.
      eapply bind_ok; [exact Hllm|].
      eapply bind_ok; [reflexivity|].
      eapply bind_ok; [apply now_eq|].
      reflexivity.
    + simpl. rewrite !app_nil_r. exact Hev.
  - eexists _, _, _. split.
    + eapply bind_ok; [apply now_eq|].
      eapply try_raise; [eapply bind_raise; exact Hllm|reflexivity].
    + simpl. rewrite !app_nil_r. exact Hev.
Qed.
End ConductorFacts.

(** ** The workflow executor *)

Section WorkflowFacts.
Variable P : Platform.
Variable agents : list (string * agent_obj).
Variable cprompt : string.

Local Abbreviation dispatch := (dispatch_step P agents cprompt).
Local Abbreviation iteration := (workflow_step P agents cprompt).
Local Abbreviation loop := (workflow_loop P agents cprompt).

Ltac use_chat H :=
  match type of H with
  | context [chat P cprompt ?m ?s ?u ?md ?st] =>
      let st1 := fresh "st" in
      let ev1 := fresh "ev" in
      let r1 := fresh "r" in
      let Hc := fresh "Hchat" in
      let He := fresh "Hev" in
      destruct (chat_returns P cprompt m s u md st) as (st1 & ev1 & r1 & Hc & He);
      rewrite Hc in H
  end.

Lemma provide_guidance_events et cs sid uid ctx (st st' : St P) evs r :
  provide_guidance P cprompt et cs sid uid ctx st = (st', evs, r) ->
  conductor_only evs.
Proof.
  unfold provide_guidance, bind. intros H. use_chat H.
  unfold lift, ret in H.
  destruct (_get_next_action et cs); inversion H; subst;
    rewrite ?app_nil_r; assumption.
Qed.

Lemma dispatch_events step uid data (st st' : St P) evs r :
  dispatch step uid data st = (st', evs, r) -> conductor_only evs.
Proof.
  unfold dispatch_step.
  repeat match goal with
         | |- context [if String.eqb ?a ?b then _ else _] => destruct (String.eqb a b)
         end.
  - unfold _execute_target_generation, bind. rewrite now_eq.
    intros H; inversion H; subst. apply conductor_only_nil.
  - unfold _execute_guidance_step.
    destruct (dict_get _ agents) as [obj|].
    + destruct obj; try (intros H; inversion H; subst; apply conductor_only_nil).
      unfold bind.
      destruct (provide_guidance P cprompt _ _ _ _ _ st) as [[st1 ev1] r1] eqn:Hg.
      apply provide_guidance_events in Hg.
      destruct r1; intros H; inversion H; subst; rewrite ?app_nil_r; assumption.
    + intros H; inversion H; subst. apply conductor_only_nil.
  - intros H; inversion H; subst. apply conductor_only_nil.
  - unfold _execute_ai_scoring, bind. rewrite utcnow_eq.
    intros H; inversion H; subst. apply conductor_only_nil.
  - unfold _execute_blockchain_commit, bind. rewrite now_eq.
    intros H; inversion H; subst. apply conductor_only_nil.
  - intros H; inversion H; subst. apply conductor_only_nil.
Qed.

(** One iteration when the handler returns. *)
Lemma iteration_ok step uid ls (st st1 : St P) evd r :
  dispatch step uid (loop_data ls) (tick st) = (st1, evd, Ok r) ->
  iteration step uid ls st =
    (tock (tick st1), EvStep step :: evd,
     Ok (mkLoop (loop_log ls ++
                   [success_entry step r (elapsed_ms P (reading st) (reading st1))
                      (stamp (tick st1))])
                (collect (loop_data ls) r) (S (current_step ls)),
         true)).
Proof.
  intros Hd. unfold workflow_step.
  erewrite bind_ok; [|reflexivity|].
  2:{ erewrite bind_ok; [|apply now_eq|].
      2:{ apply try_ok. eapply bind_ok; [exact Hd|].
          eapply bind_ok; [apply now_eq|].
          eapply bind_ok; [apply utcnow_eq|]. reflexivity. }
      reflexivity. }
  simpl. rewrite !app_nil_r. reflexivity.
Qed.

(** One iteration when the handler raises: the [except] branch. *)
Lemma iteration_raise step uid ls (st st1 : St P) evd e :
  dispatch step uid (loop_data ls) (tick st) = (st1, evd, Raise e) ->
  iteration step uid ls st =
    (tock st1, EvStep step :: evd,
     Ok (mkLoop (loop_log ls ++ [failure_entry step e (stamp st1)])
                (loop_data ls) (current_step ls),
         false)).
Proof.
  intros Hd. unfold workflow_step.
  erewrite bind_ok; [|reflexivity|].
  2:{ erewrite bind_ok; [|apply now_eq|].
      2:{ eapply try_raise; [eapply bind_raise; exact Hd|].
          eapply bind_ok; [apply utcnow_eq|]. reflexivity. }
      reflexivity. }
  simpl. rewrite !app_nil_r. reflexivity.
Qed.

Lemma loop_cons_ok step rest uid ls (st st1 : St P) evd r :
  dispatch step uid (loop_data ls) (tick st) = (st1, evd, Ok r) ->
  loop (step :: rest) uid ls st =
    (let '(st2, ev2, res) :=
       loop rest uid
         (mkLoop (loop_log ls ++
                    [success_entry step r (elapsed_ms P (reading st) (reading st1))
                       (stamp (tick st1))])
                 (collect (loop_data ls) r) (S (current_step ls)))
         (tock (tick st1)) in
     (st2, (EvStep step :: evd) ++ ev2, res)).
Proof.
  intros Hd. simpl. unfold bind. rewrite (iteration_ok _ _ _ _ _ _ _ Hd). simpl.
  reflexivity.
Qed.

Lemma loop_cons_raise step rest uid ls (st st1 : St P) evd e :
  dispatch step uid (loop_data ls) (tick st) = (st1, evd, Raise e) ->
  loop (step :: rest) uid ls st =
    (tock st1, EvStep step :: evd,
     Ok (mkLoop (loop_log ls ++ [failure_entry step e (stamp st1)])
                (loop_data ls) (current_step ls))).
Proof.
  intros Hd. simpl. unfold bind. rewrite (iteration_raise _ _ _ _ _ _ _ Hd). simpl.
  rewrite app_nil_r. reflexivity.
Qed.
End WorkflowFacts.

Section WorkflowRuns.
Variable P : Platform.
Variable agents : list (string * agent_obj).
Variable cprompt : string.

Local Abbreviation dispatch := (dispatch_step P agents cprompt).
Local Abbreviation loop := (workflow_loop P agents cprompt).

Lemma await_eq {A} (f : World P -> World P * res A) (st : St P) :
  await P f st = (set_world P st (fst (f (world P st))), [], snd (f (world P st))).
Proof. unfold await, set_world. destruct (f (world P st)); reflexivity. Qed.

Lemma steps_attempted_step step evd ev2 :
  steps_attempted evd = [] ->
  steps_attempted (EvStep step :: evd ++ ev2) = step :: steps_attempted ev2.
Proof.
  intros H. change (EvStep step :: evd ++ ev2) with ([EvStep step] ++ evd ++ ev2).
  rewrite !steps_attempted_app, H. reflexivity.
Qed.

(** The loop always ends, having appended one entry per attempted step,
    in order, merged the results' [output_data] and counted them. *)
Lemma loop_returns steps : forall uid ls (st : St P),
  exists st' evs ls' new,
    loop steps uid ls st = (st', evs, Ok ls')
    /\ loop_log ls' = loop_log ls ++ new
    /\ Forall2 logged (steps_attempted evs) new
    /\ steps_attempted evs `prefix_of` steps
    /\ loop_data ls' = fold_left collect (omap result new) (loop_data ls)
    /\ (current_step ls' <= current_step ls + length steps)%nat
    /\ (current_step ls' = current_step ls + length steps ->
        steps_attempted evs = steps /\ Forall2 logged_success steps new)%nat.
Proof.
  induction steps as [|step rest IH]; intros uid ls st.
  - exists st, [], ls, []. simpl. rewrite app_nil_r.
    repeat split; try constructor; try lia. exists []; reflexivity.
  - destruct (run_inv (dispatch step uid (loop_data ls)) (tick st))
      as (st1 & evd & [r|e] & Hd).
    + pose proof (dispatch_events _ _ _ _ _ _ _ _ _ _ Hd) as (_ & _ & _ & Hnone).
      rewrite (loop_cons_ok _ _ _ _ _ _ _ _ _ _ _ Hd).
      match goal with
      | |- context [loop rest uid ?l ?s] =>
          destruct (IH uid l s) as (st2 & ev2 & ls2 & new2 & Hrun & Hlog & Hent & Hpre
                                    & Hdata & Hle & Hall)
      end.
      rewrite Hrun. simpl in *.
      eexists _, _, _, (_ :: new2). split; [reflexivity|].
      rewrite (steps_attempted_step _ _ _ Hnone).
      split; [rewrite Hlog, <- app_assoc; reflexivity|].
      split; [constructor; [left; eauto|exact Hent]|].
      split; [destruct Hpre as [k ->]; exists k; reflexivity|].
      split; [exact Hdata|].
      split; [lia|].
      intros Heq. destruct Hall as [Hs Hf]; [lia|].
      split; [rewrite Hs; reflexivity|].
      constructor; [unfold logged_success; eauto|exact Hf].
    + pose proof (dispatch_events _ _ _ _ _ _ _ _ _ _ Hd) as (_ & _ & _ & Hnone).
      rewrite (loop_cons_raise _ _ _ _ _ _ _ _ _ _ _ Hd).
      eexists _, _, _, [_]. split; [reflexivity|].
      rewrite <- (app_nil_r evd), (steps_attempted_step _ _ _ Hnone). simpl.
      split; [reflexivity|].
      split; [constructor; [right; eauto|constructor]|].
      split; [exists rest; reflexivity|].
      split; [reflexivity|].
      split; [lia|]. intros; lia.
Qed.

End WorkflowRuns.

Section WorkflowClaims.
Variable P : Platform.
Variable agents : list (string * agent_obj).
Variable cprompt : string.
Variable load : string -> World P -> World P * res (list WorkflowStep).

Local Abbreviation dispatch := (dispatch_step P agents cprompt).
Local Abbreviation loop := (workflow_loop P agents cprompt).
Local Abbreviation run_workflow := (execute_workflow_from P agents cprompt load).

Lemma execute_workflow_eq tid uid init (st : St P) w1 steps st2 evs ls :
  load tid (world P (tick st)) = (w1, Ok steps) ->
  loop steps uid (initial_loop init) (set_world P (tick st) w1) = (st2, evs, Ok ls) ->
  run_workflow tid uid init st =
    (tick st2, evs,
     Ok (mkRun tid uid
           (if (current_step ls =? length steps)%nat then "completed" else "failed")
           (current_step ls) (length steps) (loop_log ls) (loop_data ls)
           (elapsed_ms P (reading st) (reading st2)))).
Proof.
  intros Hload Hloop. unfold execute_workflow_from.
  erewrite bind_ok; [|apply now_eq|].
  2:{ eapply bind_ok.
      - rewrite await_eq, Hload. reflexivity.
      - eapply bind_ok; [exact Hloop|].
        eapply bind_ok; [apply now_eq|reflexivity]. }
  simpl. rewrite !app_nil_r. reflexivity.
Qed.


(** C8. The returned status is ["completed"] exactly when
    [steps_completed = total_steps]; an empty template gives ["completed"]
    with no step completed. *)
Theorem completed_iff_all_steps tid uid init (st : St P) w1 steps :
  load tid (world P (tick st)) = (w1, Ok steps) ->
  exists st' evs run,
    run_workflow tid uid init st = (st', evs, Ok run)
    /\ total_steps run = length steps
    /\ (run_status run = "completed" <-> steps_completed run = total_steps run)
    /\ (steps = [] -> run_status run = "completed" /\ steps_completed run = 0%nat).
Proof.
  intros Hload.
  destruct (loop_returns P agents cprompt steps uid (initial_loop init)
              (set_world P (tick st) w1))
    as (st2 & evs & ls & new & Hrun & _).
  eexists _, _, _. split; [exact (execute_workflow_eq _ _ _ _ _ _ _ _ _ Hload Hrun)|].
  simpl. split; [reflexivity|]. split.
  - destruct (Nat.eqb_spec (current_step ls) (length steps)); split;
      intros; try assumption; try reflexivity; try discriminate; contradiction.
  - intros ->. simpl in Hrun. inversion Hrun; subst. split; reflexivity.
Qed.

(** X30. One entry is appended per attempted step, in attempt order, and
    earlier entries stay as they are; each is the dictionary of the [try]
    body or that of the [except] branch. *)
Theorem log_entries_per_attempt tid uid init (st : St P) w1 steps :
  load tid (world P (tick st)) = (w1, Ok steps) ->
  exists st' evs run,
    run_workflow tid uid init st = (st', evs, Ok run)
    /\ steps_attempted evs `prefix_of` steps
    /\ Forall2 logged (steps_attempted evs) (execution_log run)
    /\ (forall rest ls (sta stb : St P) evb lsb,
          loop rest uid ls sta = (stb, evb, Ok lsb) ->
          loop_log ls `prefix_of` loop_log lsb).
Proof.
  intros Hload.
  destruct (loop_returns P agents cprompt steps uid (initial_loop init)
              (set_world P (tick st) w1))
    as (st2 & evs & ls & new & Hrun & Hlog & Hent & Hpre & _).
  eexists _, _, _. split; [exact (execute_workflow_eq _ _ _ _ _ _ _ _ _ Hload Hrun)|].
  simpl. split; [exact Hpre|]. split.
  - simpl in Hlog. rewrite Hlog. exact Hent.
  - intros rest ls0 sta stb evb lsb Hb.
    destruct (loop_returns P agents cprompt rest uid ls0 sta)
      as (? & ? & ? & new' & Hrun' & Hlog' & _).
    rewrite Hb in Hrun'. inversion Hrun'; subst. exists new'. exact Hlog'.
Qed.
End WorkflowClaims.

(** * Runs on the scripted platform *)

(** ** Workflow runs *)


Lemma completed_iff_all_steps_witness :
  exists st' evs run,
    execute_workflow_from (scripted loads_nothing) main_agents "" three_steps
      "template" "user" None (start (scripted loads_nothing) [])
    = (st', evs, Ok run)
    /\ (run_status run = "completed" <-> steps_completed run = total_steps run).
Proof.
  destruct (completed_iff_all_steps (scripted loads_nothing) main_agents "" three_steps
              "template" "user" None (start (scripted loads_nothing) []) [] _ eq_refl)
    as (st' & evs & run & Hrun & _ & Hiff & _).
  exists st', evs, run. split; assumption.
Defined.

(** C9. Every log entry is to carry the step's type and a duration,
    whether the handler returned or raised.  On [execute_workflow] with an
    [experiment_type] that cannot be hashed, the guidance step of the
    template raises, and the entry logged for it has neither. *)
Lemma failed_step_entry_lacks_type_and_duration :
  exists st' evs entry data,
    execute_workflow (scripted loads_nothing) main_agents "" "template" "user"
      (Some {[ "experiment_type" := VList [] ]}) (start (scripted loads_nothing) [])
    = (st', evs, Ok (mkRun "template" "user" "failed" 0 1 [entry] data 0))
    /\ entry_error entry = Some "unhashable type: 'list'"
    /\ step_type entry = None
    /\ duration_ms entry = None.
Proof.
  eexists _, _, _, _. split; [vm_compute; reflexivity|].
  repeat split.
Qed.

(** * Insertion-ordered dictionaries: facts *)

Section DictFacts.
Context {V : Type}.
Implicit Types (d : list (string * V)) (k : string) (v : V).

Lemma existsb_eqb_in k (l : list string) : existsb (String.eqb k) l = true <-> k ∈ l.
Proof.
  rewrite existsb_exists. split.
  - intros (x & Hin & Heq). apply String.eqb_eq in Heq. subst.
    apply list_elem_of_In. exact Hin.
  - intros Hin. exists k. split; [apply list_elem_of_In; exact Hin|apply String.eqb_refl].
Qed.


Lemma dict_get_some_key d k v : dict_get k d = Some v -> (k, v) ∈ d.
Proof.
  induction d as [|[k' v'] d IH]; simpl; [discriminate|].
  destruct (String.eqb_spec k' k) as [->|Hne].
  - intros [= ->]. left.
  - intros H. right. auto.
Qed.

Lemma dict_get_set_eq d k v : dict_get k (dict_set k v d) = Some v.
Proof.
  induction d as [|[k' v'] d IH]; simpl.
  - rewrite String.eqb_refl. reflexivity.
  - destruct (String.eqb k' k) eqn:E; simpl; rewrite E; [reflexivity|exact IH].
Qed.

Lemma dict_get_set_ne d k k' v : k <> k' -> dict_get k' (dict_set k v d) = dict_get k' d.
Proof.
  intros Hne. induction d as [|[k0 v0] d IH]; simpl.
  - destruct (String.eqb_spec k k'); [contradiction|reflexivity].
  - destruct (String.eqb_spec k0 k) as [->|Hk]; simpl.
    + destruct (String.eqb_spec k k'); [contradiction|reflexivity].
    + destruct (String.eqb k0 k'); [reflexivity|exact IH].
Qed.

Lemma dict_keys_set d k v :
  dict_keys (dict_set k v d)
  = if existsb (String.eqb k) (dict_keys d) then dict_keys d else dict_keys d ++ [k].
Proof.
  unfold dict_keys.
  induction d as [|[k' v'] d IH]; simpl; [reflexivity|].
  rewrite (String.eqb_sym k k').
  destruct (String.eqb k' k) eqn:E; simpl; [reflexivity|].
  rewrite IH.
  destruct (existsb (String.eqb k) (map fst d)); reflexivity.
Qed.

(** Assigning a sequence of pairs appends the new keys in order of first
    occurrence. *)
Lemma dict_keys_set_all (pairs : list (string * V)) : forall d,
  dict_keys (dict_set_all pairs d)
  = dict_keys d ++ fresh_keys (dict_keys d) (map fst pairs).
Proof.
  unfold dict_set_all.
  induction pairs as [|[k v] pairs IH]; intros d; simpl.
  - rewrite app_nil_r. reflexivity.
  - rewrite IH, dict_keys_set.
    destruct (existsb (String.eqb k) (dict_keys d)); [reflexivity|].
    rewrite <- app_assoc. reflexivity.
Qed.

(** A value found after the assignments was assigned by one of them, or
    was there before. *)
Lemma dict_get_set_all (pairs : list (string * V)) : forall d k v,
  dict_get k (dict_set_all pairs d) = Some v ->
  (k, v) ∈ pairs \/ dict_get k d = Some v.
Proof.
  unfold dict_set_all.
  induction pairs as [|[k0 v0] pairs IH]; intros d k v; simpl; [auto|].
  intros H. apply IH in H. destruct H as [H|H].
  - left. right. exact H.
  - destruct (String.eqb_spec k0 k) as [->|Hne].
    + rewrite dict_get_set_eq in H. inversion H; subst. left. left.
    + rewrite dict_get_set_ne in H by exact Hne. right. exact H.
Qed.

Lemma fresh_keys_all seen (ks : list string) k :
  k ∈ ks -> k ∈ seen ++ fresh_keys seen ks.
Proof.
  revert seen. induction ks as [|k0 ks IH]; intros seen Hin.
  - inversion Hin.
  - simpl. destruct (existsb (String.eqb k0) seen) eqn:E.
    + apply elem_of_cons in Hin as [->|Hin]; [|auto].
      apply elem_of_app. left. apply existsb_eqb_in. exact E.
    + apply elem_of_cons in Hin as [->|Hin].
      * apply elem_of_app. right. left.
      * specialize (IH (seen ++ [k0]) Hin). rewrite <- app_assoc in IH. exact IH.
Qed.

Lemma fresh_keys_nodup (ks : list string) : forall seen,
  NoDup seen -> NoDup (seen ++ fresh_keys seen ks).
Proof.
  induction ks as [|k0 ks IH]; intros seen Hnd; simpl.
  - rewrite app_nil_r. exact Hnd.
  - destruct (existsb (String.eqb k0) seen) eqn:E; [auto|].
    change (k0 :: fresh_keys (seen ++ [k0]) ks)
      with ([k0] ++ fresh_keys (seen ++ [k0]) ks).
    rewrite app_assoc. apply IH.
    apply NoDup_app. split; [exact Hnd|]. split.
    + intros x Hx Hx'. apply list_elem_of_singleton in Hx'. subst.
      apply existsb_eqb_in in Hx. congruence.
    + apply NoDup_singleton.
Qed.

Lemma fresh_keys_id (ks : list string) : NoDup ks -> first_occurrences ks = ks.
Proof.
  unfold first_occurrences.
  enough (H : forall seen, NoDup (seen ++ ks) -> fresh_keys seen ks = ks)
    by (intros; apply H; assumption).
  induction ks as [|k0 ks IH]; intros seen Hnd; simpl; [reflexivity|].
  destruct (existsb (String.eqb k0) seen) eqn:E.
  - apply existsb_eqb_in in E. apply NoDup_app in Hnd as (_ & Hdisj & _).
    exfalso. apply (Hdisj k0 E). left.
  - f_equal. apply IH. rewrite <- app_assoc. exact Hnd.
Qed.


Lemma dict_keys_nodup (pairs : list (string * V)) :
  NoDup (dict_keys (dict_set_all pairs [])).
Proof.
  rewrite dict_keys_set_all. simpl.
  apply (fresh_keys_nodup _ []). constructor.
Qed.
End DictFacts.

(** * Agents and strategies *)

Lemma call_events_projections n t c inner r :
  conductor_only inner ->
  invocations (call_events n t c inner r) = [(n, t, c)]
  /\ returned (call_events n t c inner r) = [(n, r)]
  /\ synth_calls (call_events n t c inner r) = [].
Proof.
  intros (Hi & Hr & Hs & _). unfold call_events.
  change (EvCallAgent n t c :: inner ++ [EvAgentReturn n r])
    with ([EvCallAgent n t c] ++ inner ++ [EvAgentReturn n r]).
  rewrite !invocations_app, !returned_app, !synth_calls_app, Hi, Hr, Hs.
  repeat split.
Qed.

Section AgentFacts.
Variable P : Platform.
Variable agents : list (string * agent_obj).
Variable cprompt : string.

Local Abbreviation call := (_call_agent P agents cprompt).

(** An agent that is not registered: a result, no effect. *)
Lemma call_agent_not_found n t uid sid c (st : St P) :
  dict_get n agents = None ->
  call n t uid sid c st = (st, call_events n t c [] (not_found_result n),
                           Ok (not_found_result n)).
Proof.
  intros Hnone. unfold _call_agent. rewrite Hnone. reflexivity.
Qed.

(** With the registry wired, [_call_agent] returns. *)
Lemma call_agent_returns n t uid sid c (st : St P) :
  wired agents = true ->
  exists st' inner r,
    call n t uid sid c st = (st', call_events n t c inner r, Ok r)
    /\ conductor_only inner.
Proof.
  intros Hw. unfold _call_agent.
  destruct (dict_get n agents) as [obj|] eqn:Hget.
  - destruct (String.eqb_spec n "experiment_conductor") as [->|_].
    + unfold wired in Hw. rewrite Hget in Hw.
      destruct obj; try discriminate.
      destruct (chat_returns P cprompt [Message "user" t] sid uid c st)
        as (st1 & ev1 & r1 & Hc & Hev).
      exists st1, ev1, r1. split; [|exact Hev].
      unfold bind, emit. rewrite Hc. reflexivity.
    + destruct (String.eqb n "data_analyst");
        eexists st, [], _; (split; [reflexivity|apply conductor_only_nil]).
  - eexists st, [], _. split; [reflexivity|apply conductor_only_nil].
Qed.
End AgentFacts.

Lemma sequential_trace_projections task_for ctx_for prev names evs pairs :
  sequential_trace task_for ctx_for prev names evs pairs ->
  returned evs = pairs /\ map fst pairs = names /\ synth_calls evs = []
  /\ map (fun i => fst (fst i)) (invocations evs) = names.
Proof.
  induction 1 as [|prev a rest inner r evs pairs Hin _ (IH1 & IH2 & IH3 & IH4)].
  - repeat split.
  - destruct (call_events_projections a (task_for a) (Some (ctx_for prev)) inner r Hin)
      as (Hi & Hr & Hs).
    rewrite returned_app, synth_calls_app, invocations_app, Hi, Hr, Hs. simpl.
    rewrite IH1, IH2, IH3, IH4. repeat split.
Qed.

(** Consecutive agents: the second is called right after the first
    returned, with the context built from the first's response. *)
Lemma sequential_trace_pair task_for ctx_for pre : forall prev A B post evs pairs,
  sequential_trace task_for ctx_for prev (pre ++ A :: B :: post) evs pairs ->
  exists e1 rA e2,
    evs = e1 ++ EvAgentReturn A rA
             :: EvCallAgent B (task_for B) (Some (ctx_for (Some (response rA)))) :: e2
    /\ length (invocations e1) = S (length pre)
    /\ length (returned e1) = length pre.
Proof.
  induction pre as [|p pre IH]; intros prev A B post evs pairs Htr.
  - simpl in Htr. inversion Htr as [|? ? ? inner rA evs1 pairs1 Hin Hrest]; subst.
    inversion Hrest as [|? ? ? innerB rB evs2 pairs2 HinB Hrest2]; subst.
    exists (EvCallAgent A (task_for A) (Some (ctx_for prev)) :: inner), rA,
           (innerB ++ [EvAgentReturn B rB] ++ evs2).
    destruct Hin as (Hi & Hr & _).
    split; [|split].
    + unfold call_events. simpl. rewrite <- !app_assoc. reflexivity.
    + change (EvCallAgent A (task_for A) (Some (ctx_for prev)) :: inner)
        with ([EvCallAgent A (task_for A) (Some (ctx_for prev))] ++ inner).
      rewrite invocations_app, Hi. reflexivity.
    + change (EvCallAgent A (task_for A) (Some (ctx_for prev)) :: inner)
        with ([EvCallAgent A (task_for A) (Some (ctx_for prev))] ++ inner).
      rewrite returned_app, Hr. reflexivity.
  - simpl in Htr. inversion Htr as [|? ? ? inner r evs1 pairs1 Hin Hrest]; subst.
    destruct (IH _ _ _ _ _ _ Hrest) as (e1 & rA & e2 & -> & Hlen1 & Hlen2).
    exists (call_events p (task_for p) (Some (ctx_for prev)) inner r ++ e1), rA, e2.
    destruct (call_events_projections p (task_for p) (Some (ctx_for prev)) inner r Hin)
      as (Hi & Hr & _).
    split; [|split].
    + rewrite <- app_assoc. reflexivity.
    + rewrite invocations_app, Hi, length_app, Hlen1. reflexivity.
    + rewrite returned_app, Hr, length_app, Hlen2. reflexivity.
Qed.

Section SequentialFacts.
Variable P : Platform.
Variable agents : list (string * agent_obj).
Variable cprompt : string.
Variable task : string.
Variable user_id : option string.
Variable session_id : value.
Variable context : option (gmap string value).
Variable agent_tasks : gmap string string.

Local Abbreviation call := (_call_agent P agents cprompt).
Local Abbreviation sequential :=
  (run_sequential P agents cprompt task user_id session_id context agent_tasks).

Lemma run_sequential_wired names :
  wired agents = true ->
  forall prev acc (st : St P),
  exists st' evs pairs,
    sequential names prev acc st = (st', evs, Ok (dict_set_all pairs acc))
    /\ sequential_trace (agent_task_for task agent_tasks) (enhanced_context context)
         prev names evs pairs
    /\ Forall (answers_absent agents) pairs.
Proof.
  intros Hw. induction names as [|a rest IH]; intros prev acc st.
  - exists st, [], []. repeat split; constructor.
  - destruct (call_agent_returns P agents cprompt a (agent_task_for task agent_tasks a)
                user_id session_id (Some (enhanced_context context prev)) st Hw)
      as (st1 & inner & r & Hcall & Hin).
    destruct (IH (Some (response r)) (dict_set a r acc) st1)
      as (st2 & evs & pairs & Hrun & Htr & Habs).
    exists st2, (call_events a (agent_task_for task agent_tasks a)
                   (Some (enhanced_context context prev)) inner r ++ evs),
           ((a, r) :: pairs).
    split; [|split].
    + exact (bind_ok _ _ _ _ _ _ _ _ _ Hcall Hrun).
    + constructor; assumption.
    + constructor; [|exact Habs].
      intros Hnone. simpl in *.
      rewrite (call_agent_not_found P agents cprompt _ _ _ _ _ _ Hnone) in Hcall.
      inversion Hcall. reflexivity.
Qed.
End SequentialFacts.

(** ** Completion in any order *)

Lemma insert_swap {A} (l : list A) : forall i j x y,
  i <> j -> <[i:=x]> (<[j:=y]> l) = <[j:=y]> (<[i:=x]> l).
Proof.
  induction l as [|a l IH]; intros [|i] [|j] x y Hne; simpl; try reflexivity.
  - contradiction.
  - f_equal. apply IH. congruence.
Qed.

Lemma fill_absent {A} (ws : list (nat * A)) : forall slots i x,
  i ∉ map fst ws -> fill (<[i:=x]> slots) ws = <[i:=x]> (fill slots ws).
Proof.
  induction ws as [|[j r] ws IH]; intros slots i x Hni; simpl; [reflexivity|].
  simpl in Hni. apply not_elem_of_cons in Hni as [Hne Hni].
  rewrite insert_swap by congruence. apply IH. exact Hni.
Qed.

(** With distinct positions the order of the writes does not matter. *)
Lemma fill_permutation {A} (ws ws' : list (nat * A)) :
  ws ≡ₚ ws' -> NoDup (map fst ws) -> forall slots, fill slots ws = fill slots ws'.
Proof.
  induction 1 as [|w ws ws' Hp IH|w1 w2 ws|ws1 ws2 ws3 Hp1 IH1 Hp2 IH2];
    intros Hnd slots.
  - reflexivity.
  - simpl. apply IH. simpl in Hnd. apply NoDup_cons in Hnd as [_ Hnd]. exact Hnd.
  - simpl. f_equal. simpl in Hnd.
    apply NoDup_cons in Hnd as [Hni _]. apply not_elem_of_cons in Hni as [Hne _].
    apply insert_swap. congruence.
  - rewrite IH1 by exact Hnd. apply IH2.
    apply (NoDup_Permutation_proper _ _ (Permutation_map fst Hp1)). exact Hnd.
Qed.

(** Writing every position once, in order, fills the slots. *)
Lemma fill_in_order {A} (rs : list A) : forall pre,
  fill (pre ++ replicate (length rs) None) (zip (seq (length pre) (length rs)) rs)
  = pre ++ map Some rs.
Proof.
  induction rs as [|r rs IH]; intros pre; simpl.
  - reflexivity.
  - rewrite insert_app_r_alt by lia. rewrite Nat.sub_diag. simpl.
    specialize (IH (pre ++ [Some r])).
    rewrite length_app in IH. simpl in IH.
    rewrite Nat.add_1_r, <- !app_assoc in IH. exact IH.
Qed.

Lemma omap_id_some {A} (rs : list A) : omap id (map Some rs) = rs.
Proof. induction rs as [|r rs IH]; simpl; [reflexivity|]. f_equal. exact IH. Qed.

Lemma label_in_order (names : list string) : forall pre (rs : list AgentResult),
  length rs = length names ->
  omap (label (pre ++ names)) (zip (seq (length pre) (length names)) rs)
  = zip names rs.
Proof.
  induction names as [|n names IH]; intros pre rs Hlen.
  - reflexivity.
  - destruct rs as [|r rs]; [discriminate|]. simpl in Hlen. simpl.
    unfold label at 1. simpl.
    rewrite lookup_app_r by lia. rewrite Nat.sub_diag. simpl. f_equal.
    specialize (IH (pre ++ [n]) rs ltac:(lia)).
    rewrite length_app in IH. simpl in IH.
    rewrite Nat.add_1_r, <- app_assoc in IH. exact IH.
Qed.

Lemma completion_trace_projections names task_for ctx sched evs ws :
  completion_trace names task_for ctx sched evs ws ->
  returned evs = omap (label names) ws /\ synth_calls evs = [] /\ map fst ws = sched.
Proof.
  induction 1 as [|i n rest inner r evs ws Hn Hin _ (IH1 & IH2 & IH3)].
  - repeat split.
  - destruct (call_events_projections n (task_for n) ctx inner r Hin) as (_ & Hr & Hs).
    rewrite returned_app, synth_calls_app, Hr, Hs, IH1, IH2. simpl.
    unfold label at 2. simpl. rewrite Hn, IH3. repeat split.
Qed.

Section ParallelFacts.
Variable P : Platform.
Variable agents : list (string * agent_obj).
Variable cprompt : string.
Variable task : string.
Variable user_id : option string.
Variable session_id : value.
Variable context : option (gmap string value).
Variable agent_tasks : gmap string string.

Local Abbreviation coroutine :=
  (parallel_call P agents cprompt task user_id session_id context agent_tasks).

Lemma lookup_map {A B} (f : A -> B) (l : list A) (i : nat) :
  map f l !! i = f <$> l !! i.
Proof. exact (list_lookup_fmap f l i). Qed.

Lemma run_scheduled_wired names :
  wired agents = true ->
  forall sched slots (st : St P),
  Forall (fun i => (i < length names)%nat) sched ->
  exists st' evs ws,
    run_scheduled P (map coroutine names) sched slots st
    = (st', evs, Ok (fill slots ws))
    /\ completion_trace names (agent_task_for task agent_tasks) context sched evs ws
    /\ Forall (answers_absent agents) (omap (label names) ws).
Proof.
  intros Hw. induction sched as [|i rest IH]; intros slots st Hall.
  - exists st, [], []. repeat split; constructor.
  - apply Forall_cons in Hall as [Hi Hall].
    destruct (lookup_lt_is_Some_2 names i Hi) as [n Hn].
    destruct (call_agent_returns P agents cprompt n (agent_task_for task agent_tasks n)
                user_id session_id context st Hw)
      as (st1 & inner & r & Hcall & Hin).
    destruct (IH (<[i := Some r]> slots) st1 Hall) as (st2 & evs & ws & Hrun & Htr & Habs).
    exists st2, (call_events n (agent_task_for task agent_tasks n) context inner r ++ evs),
           ((i, r) :: ws).
    split; [|split].
    + simpl. rewrite lookup_map, Hn. simpl.
      exact (bind_ok _ _ _ _ _ _ _ _ _ Hcall Hrun).
    + econstructor; eassumption.
    + simpl. unfold label at 1. simpl. rewrite Hn. constructor; [|exact Habs].
      intros Hnone. simpl in *. unfold parallel_call in Hcall.
      rewrite (call_agent_not_found P agents cprompt _ _ _ _ _ _ Hnone) in Hcall.
      inversion Hcall. reflexivity.
Qed.

Lemma completion_order_permutation sched n : completion_order sched n ≡ₚ seq 0 n.
Proof. unfold completion_order. destruct (decide (sched ≡ₚ seq 0 n)); done. Qed.

(** Whatever the completion order, [gather] hands back one result per
    agent, by position. *)
Lemma gather_wired names sched (st : St P) :
  wired agents = true ->
  exists st' evs results,
    gather P (map coroutine names) sched st = (st', evs, Ok results)
    /\ length results = length names
    /\ returned evs ≡ₚ zip names results
    /\ synth_calls evs = []
    /\ Forall (answers_absent agents) (zip names results).
Proof.
  intros Hw. unfold gather. rewrite length_map.
  set (n := length names).
  pose proof (completion_order_permutation sched n) as Hperm.
  assert (Hall : Forall (fun i => (i < n)%nat) (completion_order sched n)).
  { apply Forall_forall. intros i Hi. rewrite Hperm in Hi.
    apply elem_of_seq in Hi. lia. }
  destruct (run_scheduled_wired names Hw _ (replicate n None) st Hall)
    as (st1 & evs & ws & Hrun & Htr & Habs).
  destruct (completion_trace_projections _ _ _ _ _ _ Htr) as (Hret & Hsyn & Hfst).
  assert (Hp : seq 0 n ≡ₚ map fst ws) by (rewrite Hfst; symmetry; exact Hperm).
  destruct (Permutation_map_inv _ _ Hp) as (ws' & Hseq & Hws).
  assert (Hnd : NoDup (map fst ws)).
  { apply (NoDup_Permutation_proper _ _ Hp). apply NoDup_seq. }
  set (rs := map snd ws').
  assert (Hlen : length rs = n).
  { unfold rs. rewrite length_map, <- (length_map fst), <- Hseq. apply length_seq. }
  assert (Hzip : ws' = zip (seq 0 (length rs)) rs).
  { rewrite Hlen, Hseq. symmetry. exact (zip_fst_snd ws'). }
  assert (Hfill : fill (replicate n None) ws = map Some rs).
  { rewrite (fill_permutation _ _ Hws Hnd), Hzip, <- Hlen.
    exact (fill_in_order rs []). }
  assert (Hlab : omap (label names) ws' = zip names rs).
  { rewrite Hzip, Hlen. exact (label_in_order names [] rs Hlen). }
  exists st1, evs, rs. split; [|split; [|split; [|split]]].
  - erewrite bind_ok; [|exact Hrun|reflexivity].
    rewrite Hfill, omap_id_some, app_nil_r. reflexivity.
  - exact Hlen.
  - rewrite Hret, <- Hlab. apply omap_Permutation. exact Hws.
  - exact Hsyn.
  - rewrite <- Hlab. apply Forall_forall. intros x Hx.
    rewrite <- Hws in Hx. revert x Hx. apply Forall_forall. exact Habs.
Qed.
End ParallelFacts.

(** ** Routing, the strategies, the final response *)

Section TaskFacts.
Variable P : Platform.
Variable agents : list (string * agent_obj).
Variable cprompt : string.
Variable mprompt : string.

Lemma route_task_eq task uid ctx (st : St P) :
  route_task P agents mprompt task uid ctx st
  = (set_world P st (fst (chat_completion P (routing_request P agents mprompt task ctx) (world P st))),
     [EvChatCompletion SiteRouter (routing_request P agents mprompt task ctx)
        (snd (chat_completion P (routing_request P agents mprompt task ctx) (world P st)))],
     match snd (chat_completion P (routing_request P agents mprompt task ctx) (world P st)) with
     | Ok rep =>
         Ok (match json_loads P (reply_content rep) with
             | Decoded doc => doc
             | JSONDecodeError _ => PlanObject (fallback_plan P agents task ctx)
             end)
     | Raise e => Raise e
     end).
Proof.
  unfold route_task, bind, llm, routing_request, set_world.
  destruct (chat_completion P _ (world P st)) as [w [rep|e]]; simpl; [|reflexivity].
  destruct (json_loads P (reply_content rep)); reflexivity.
Qed.

(** Routing records one backend call and nothing else. *)
Lemma route_task_events task uid ctx (st st' : St P) evs r :
  route_task P agents mprompt task uid ctx st = (st', evs, r) ->
  invocations evs = [] /\ returned evs = [] /\ synth_calls evs = [].
Proof.
  rewrite route_task_eq. intros H. inversion H; subst. repeat split.
Qed.

Lemma final_response_one task ctx k r (st : St P) :
  final_response P task ctx [(k, r)] st = (st, [], Ok (response r)).
Proof. unfold final_response. simpl. rewrite String.eqb_refl. reflexivity. Qed.

Lemma final_response_none task ctx (st : St P) :
  final_response P task ctx [] st
  = (st, [], Raise (Exception "IndexError" "list index out of range")).
Proof. reflexivity. Qed.

Lemma final_response_many task ctx res (st : St P) :
  (1 < length res)%nat ->
  final_response P task ctx res st
  = (set_world P st (fst (chat_completion P (synthesis_request task res) (world P st))),
     [EvChatCompletion SiteSynthesizer (synthesis_request task res)
        (snd (chat_completion P (synthesis_request task res) (world P st)))],
     match snd (chat_completion P (synthesis_request task res) (world P st)) with
     | Ok rep => Ok (reply_content rep)
     | Raise e => Raise e
     end).
Proof.
  intros Hlen. unfold final_response.
  destruct (Nat.ltb_spec 1 (length res)) as [_|]; [|lia].
  unfold _synthesize_results, bind, llm, set_world.
  destruct (chat_completion P _ (world P st)) as [w [rep|e]]; reflexivity.
Qed.

Section Run.
Variable task : string.
Variable user_id : option string.
Variable session_id : value.
Variable context : option (gmap string value).
Variable sched : list nat.

Local Abbreviation run_task :=
  (execute_task P agents cprompt mprompt task user_id session_id context sched).
Local Abbreviation route := (route_task P agents mprompt task user_id context).
Local Abbreviation strategy_of plan :=
  (run_strategy P agents cprompt task user_id session_id context
     (default ∅ (plan_routing plan)) (default "single" (plan_strategy plan)) sched
     (default [] (plan_agents plan))).

Lemma execute_task_route_raises (st st1 : St P) ev1 e :
  route (tick st) = (st1, ev1, Raise e) ->
  run_task st = (st1, ev1, Ok (failed e)).
Proof.
  intros Hr. unfold execute_task.
  erewrite bind_ok; [|apply now_eq|].
  2:{ eapply try_raise; [eapply bind_raise; exact Hr|reflexivity]. }
  simpl. rewrite app_nil_r. reflexivity.
Qed.

Lemma execute_task_not_an_object (st st1 : St P) ev1 k :
  route (tick st) = (st1, ev1, Ok (NonObject k)) ->
  run_task st
  = (st1, ev1,
     Ok (failed (Exception "AttributeError"
                   ("'" +:+ type_name k +:+ "' object has no attribute 'get'")))).
Proof.
  intros Hr. unfold execute_task.
  erewrite bind_ok; [|apply now_eq|].
  2:{ eapply try_raise; [eapply bind_ok; [exact Hr|reflexivity]|reflexivity]. }
  simpl. rewrite !app_nil_r. reflexivity.
Qed.

Lemma execute_task_strategy_raises (st st1 st2 : St P) ev1 ev2 plan e :
  route (tick st) = (st1, ev1, Ok (PlanObject plan)) ->
  strategy_of plan st1 = (st2, ev2, Raise e) ->
  run_task st = (st2, ev1 ++ ev2, Ok (failed e)).
Proof.
  intros Hr Hs. unfold execute_task.
  erewrite bind_ok; [|apply now_eq|].
  2:{ eapply try_raise; [|reflexivity].
      eapply bind_ok; [exact Hr|]. eapply bind_raise. exact Hs. }
  simpl. rewrite !app_nil_r. reflexivity.
Qed.

Lemma execute_task_final_raises (st st1 st2 st3 : St P) ev1 ev2 ev3 plan res e :
  route (tick st) = (st1, ev1, Ok (PlanObject plan)) ->
  strategy_of plan st1 = (st2, ev2, Ok res) ->
  final_response P task context res st2 = (st3, ev3, Raise e) ->
  run_task st = (st3, ev1 ++ ev2 ++ ev3, Ok (failed e)).
Proof.
  intros Hr Hs Hf. unfold execute_task.
  erewrite bind_ok; [|apply now_eq|].
  2:{ eapply try_raise; [|reflexivity].
      eapply bind_ok; [exact Hr|]. eapply bind_ok; [exact Hs|].
      eapply bind_raise. exact Hf. }
  simpl. rewrite !app_nil_r. reflexivity.
Qed.

Lemma execute_task_coordinated (st st1 st2 st3 : St P) ev1 ev2 ev3 plan res final :
  route (tick st) = (st1, ev1, Ok (PlanObject plan)) ->
  strategy_of plan st1 = (st2, ev2, Ok res) ->
  final_response P task context res st2 = (st3, ev3, Ok final) ->
  run_task st
  = (tock (tick (counted P st3)), ev1 ++ ev2 ++ ev3,
     Ok (coordinated P plan res final st st3)).
Proof.
  intros Hr Hs Hf. unfold execute_task.
  erewrite bind_ok; [|apply now_eq|].
  2:{ eapply try_ok.
      eapply bind_ok; [exact Hr|]. eapply bind_ok; [exact Hs|].
      eapply bind_ok; [exact Hf|].
      eapply bind_ok; [reflexivity|].
      eapply bind_ok; [apply now_eq|].
      eapply bind_ok; [apply utcnow_eq|reflexivity]. }
  simpl. rewrite !app_nil_r. reflexivity.
Qed.

(** With the registry wired, every strategy returns: the results are the
    assignments, in plan order, of what the invoked agents returned. *)
Lemma run_strategy_wired agent_tasks strategy names (st : St P) :
  wired agents = true ->
  exists st' evs pairs,
    run_strategy P agents cprompt task user_id session_id context agent_tasks
      strategy sched names st
    = (st', evs, Ok (dict_set_all pairs []))
    /\ map fst pairs = invoked strategy names
    /\ returned evs ≡ₚ pairs
    /\ synth_calls evs = []
    /\ Forall (answers_absent agents) pairs.
Proof.
  intros Hw. unfold run_strategy, invoked.
  destruct (String.eqb strategy "single").
  { unfold run_single.
    set (a := match names with first :: _ => first | [] => "experiment_conductor" end).
    destruct (call_agent_returns P agents cprompt a (agent_task_for task agent_tasks a)
                user_id session_id context st Hw)
      as (st1 & inner & r & Hcall & Hin).
    destruct (call_events_projections a (agent_task_for task agent_tasks a)
                context inner r Hin) as (_ & Hr & Hs).
    exists st1, (call_events a (agent_task_for task agent_tasks a) context inner r),
           [(a, r)].
    split; [|split; [|split; [|split]]].
    - erewrite bind_ok; [|exact Hcall|reflexivity]. rewrite app_nil_r. reflexivity.
    - reflexivity.
    - rewrite Hr. reflexivity.
    - exact Hs.
    - constructor; [|constructor]. intros Hnone. simpl in *.
      rewrite (call_agent_not_found P agents cprompt _ _ _ _ _ _ Hnone) in Hcall.
      inversion Hcall. reflexivity. }
  destruct (String.eqb strategy "parallel").
  { unfold run_parallel.
    destruct (gather_wired P agents cprompt task user_id session_id context agent_tasks
                names sched st Hw)
      as (st1 & evs & results & Hg & Hlen & Hret & Hsyn & Habs).
    exists st1, evs, (zip names results).
    split; [|split; [|split; [|split]]]; try assumption.
    - erewrite bind_ok; [|exact Hg|reflexivity]. rewrite app_nil_r. reflexivity.
    - apply (fst_zip names results). lia. }
  destruct (String.eqb strategy "sequential").
  { destruct (run_sequential_wired P agents cprompt task user_id session_id context
                agent_tasks names Hw None [] st)
      as (st1 & evs & pairs & Hrun & Htr & Habs).
    destruct (sequential_trace_projections _ _ _ _ _ _ Htr) as (Hret & Hfst & Hsyn & _).
    exists st1, evs, pairs.
    split; [|split; [|split; [|split]]]; try assumption.
    rewrite Hret. reflexivity. }
  exists st, [], []. repeat split; constructor.
Qed.
End Run.
End TaskFacts.

(** ** Tasks *)

Lemma two_keys {V} (d : list (string * V)) k1 k2 :
  k1 ∈ dict_keys d -> k2 ∈ dict_keys d -> k1 <> k2 -> (1 < length d)%nat.
Proof.
  destruct d as [|[a x] [|[b y] d]]; simpl; intros H1 H2 Hne.
  - inversion H1.
  - apply list_elem_of_singleton in H1, H2. congruence.
  - lia.
Qed.

Section TaskClaims.
Variable P : Platform.
Variable agents : list (string * agent_obj).
Variable cprompt : string.
Variable mprompt : string.
Variable task : string.
Variable user_id : option string.
Variable session_id : value.
Variable context : option (gmap string value).
Variable sched : list nat.

Local Abbreviation run_task :=
  (execute_task P agents cprompt mprompt task user_id session_id context sched).
Local Abbreviation route := (route_task P agents mprompt task user_id context).

Lemma final_response_events res (st st' : St P) evs r :
  final_response P task context res st = (st', evs, r) ->
  invocations evs = [] /\ returned evs = [].
Proof.
  destruct res as [|[k x] [|p res]].
  - rewrite final_response_none. intros H; inversion H; subst. split; reflexivity.
  - rewrite final_response_one. intros H; inversion H; subst. split; reflexivity.
  - rewrite final_response_many by (simpl; lia).
    intros H; inversion H; subst. split; reflexivity.
Qed.

(** Every run of [execute_task] is a routing, then, if the plan is an
    object, a strategy, then the final response. *)
Lemma execute_task_stages (st : St P) :
  wired agents = true ->
  exists st1 ev1 routed,
    route (tick st) = (st1, ev1, routed)
    /\ match routed with
       | Raise e => run_task st = (st1, ev1, Ok (failed e))
       | Ok (NonObject k) => exists e, run_task st = (st1, ev1, Ok (failed e))
       | Ok (PlanObject plan) =>
           exists st2 ev2 pairs st3 ev3 fin,
             run_strategy P agents cprompt task user_id session_id context
               (default ∅ (plan_routing plan)) (default "single" (plan_strategy plan))
               sched (default [] (plan_agents plan)) st1
             = (st2, ev2, Ok (dict_set_all pairs []))
             /\ map fst pairs
                = invoked (default "single" (plan_strategy plan))
                    (default [] (plan_agents plan))
             /\ returned ev2 ≡ₚ pairs
             /\ synth_calls ev2 = []
             /\ Forall (answers_absent agents) pairs
             /\ final_response P task context (dict_set_all pairs []) st2
                = (st3, ev3, fin)
             /\ match fin with
                | Ok final =>
                    run_task st
                    = (tock (tick (counted P st3)), ev1 ++ ev2 ++ ev3,
                       Ok (coordinated P plan (dict_set_all pairs []) final st st3))
                | Raise e => run_task st = (st3, ev1 ++ ev2 ++ ev3, Ok (failed e))
                end
       end.
Proof.
  intros Hw.
  destruct (run_inv route (tick st)) as (st1 & ev1 & routed & Hr).
  exists st1, ev1, routed. split; [exact Hr|].
  destruct routed as [[plan|k]|e].
  - destruct (run_strategy_wired P agents cprompt task user_id session_id context sched
                (default ∅ (plan_routing plan)) (default "single" (plan_strategy plan))
                (default [] (plan_agents plan)) st1 Hw)
      as (st2 & ev2 & pairs & Hs & Hfst & Hret & Hsyn & Habs).
    destruct (run_inv (final_response P task context (dict_set_all pairs [])) st2)
      as (st3 & ev3 & fin & Hf).
    exists st2, ev2, pairs, st3, ev3, fin.
    repeat (split; [assumption|]).
    destruct fin as [final|e].
    + exact (execute_task_coordinated P agents cprompt mprompt task user_id session_id
               context sched _ _ _ _ _ _ _ _ _ _ Hr Hs Hf).
    + exact (execute_task_final_raises P agents cprompt mprompt task user_id session_id
               context sched _ _ _ _ _ _ _ _ _ _ Hr Hs Hf).
  - eexists. exact (execute_task_not_an_object P agents cprompt mprompt task user_id
                      session_id context sched _ _ _ _ Hr).
  - exact (execute_task_route_raises P agents cprompt mprompt task user_id session_id
             context sched _ _ _ _ Hr).
Qed.

(** C10. A plan whose strategy is none of the three: no agent is invoked
    and the caller gets the error outcome, from the failed lookup of the
    first key of the empty results. *)
Theorem unknown_strategy_is_an_error (st st1 : St P) ev1 plan s :
  route (tick st) = (st1, ev1, Ok (PlanObject plan)) ->
  plan_strategy plan = Some s ->
  s <> "single" -> s <> "parallel" -> s <> "sequential" ->
  run_task st
  = (st1, ev1, Ok (Failed coordination_apology "list index out of range" "error"))
  /\ invocations ev1 = []
  /\ outcome_strategy (Failed coordination_apology "list index out of range" "error")
     = "error".
Proof.
  intros Hr Hs H1 H2 H3.
  assert (Hrun : run_strategy P agents cprompt task user_id session_id context
                   (default ∅ (plan_routing plan)) (default "single" (plan_strategy plan))
                   sched (default [] (plan_agents plan)) st1 = (st1, [], Ok [])).
  { rewrite Hs. simpl. unfold run_strategy.
    destruct (String.eqb_spec s "single"); [contradiction|].
    destruct (String.eqb_spec s "parallel"); [contradiction|].
    destruct (String.eqb_spec s "sequential"); [contradiction|].
    reflexivity. }
  pose proof (execute_task_final_raises P agents cprompt mprompt task user_id session_id
                context sched _ _ _ _ _ _ _ _ _ _ Hr Hrun
                (final_response_none P task context st1)) as H.
  rewrite !app_nil_r in H.
  destruct (route_task_events _ _ _ _ _ _ _ _ _ _ Hr) as (Hi & _).
  repeat split; assumption.
Qed.

(** C3. When exactly one [AgentResult] is produced, the outcome's response
    is that result's response and the synthesis backend is not called. *)
Theorem single_result_passthrough (st st' : St P) evs out agent_name r :
  wired agents = true ->
  run_task st = (st', evs, Ok out) ->
  returned evs = [(agent_name, r)] ->
  exists o,
    out = Coordinated o
    /\ out_response o = response r
    /\ agent_results o = [(agent_name, r)]
    /\ synth_calls evs = [].
Proof.
  intros Hw Hrun Hone.
  destruct (execute_task_stages st Hw) as (st1 & ev1 & routed & Hr & Hcase).
  destruct (route_task_events _ _ _ _ _ _ _ _ _ _ Hr) as (_ & Hret1 & Hsyn1).
  destruct routed as [[plan|k]|e].
  - destruct Hcase as (st2 & ev2 & pairs & st3 & ev3 & fin & Hs & _ & Hperm & Hsyn2
                       & _ & Hf & Hfin).
    destruct (final_response_events _ _ _ _ _ Hf) as (_ & Hret3).
    assert (Hevs : evs = ev1 ++ ev2 ++ ev3).
    { destruct fin; rewrite Hfin in Hrun; inversion Hrun; reflexivity. }
    rewrite Hevs, !returned_app, Hret1, Hret3, app_nil_r in Hone. simpl in Hone.
    rewrite Hone in Hperm. apply Permutation_length_1_inv in Hperm. subst pairs.
    change (dict_set_all [(agent_name, r)] []) with [(agent_name, r)] in *.
    rewrite final_response_one in Hf. inversion Hf; subst st3 ev3 fin.
    rewrite Hfin in Hrun. inversion Hrun; subst.
    eexists. split; [reflexivity|]. simpl.
    rewrite !synth_calls_app, Hsyn1, Hsyn2. repeat split.
  - destruct Hcase as [e Hfail]. rewrite Hfail in Hrun. inversion Hrun; subst.
    rewrite Hret1 in Hone. discriminate.
  - rewrite Hcase in Hrun. inversion Hrun; subst.
    rewrite Hret1 in Hone. discriminate.
Qed.

(** C4, as the code has it. When results were produced under two different
    agent names, the synthesis backend is called exactly once; its reply's
    content is the outcome's response, and if that call raises the caller
    gets the error outcome. *)
Theorem synthesis_for_distinct_agents (st st' : St P) evs out n1 r1 n2 r2 :
  wired agents = true ->
  run_task st = (st', evs, Ok out) ->
  (n1, r1) ∈ returned evs ->
  (n2, r2) ∈ returned evs ->
  n1 <> n2 ->
  exists req answer,
    synth_calls evs = [(req, answer)]
    /\ match answer with
       | Ok rep => exists o, out = Coordinated o /\ out_response o = reply_content rep
       | Raise e => out = failed e
       end.
Proof.
  intros Hw Hrun Hin1 Hin2 Hne.
  destruct (execute_task_stages st Hw) as (st1 & ev1 & routed & Hr & Hcase).
  destruct (route_task_events _ _ _ _ _ _ _ _ _ _ Hr) as (_ & Hret1 & Hsyn1).
  destruct routed as [[plan|k]|e].
  - destruct Hcase as (st2 & ev2 & pairs & st3 & ev3 & fin & Hs & _ & Hperm & Hsyn2
                       & _ & Hf & Hfin).
    destruct (final_response_events _ _ _ _ _ Hf) as (_ & Hret3).
    assert (Hevs : evs = ev1 ++ ev2 ++ ev3).
    { destruct fin; rewrite Hfin in Hrun; inversion Hrun; reflexivity. }
    rewrite Hevs, !returned_app, Hret1, Hret3, app_nil_r in Hin1, Hin2.
    simpl in Hin1, Hin2. rewrite Hperm in Hin1, Hin2.
    assert (Hlen : (1 < length (dict_set_all pairs []))%nat).
    { apply (two_keys _ n1 n2); [| |exact Hne];
        rewrite dict_keys_set_all; apply (fresh_keys_all [] (map fst pairs));
        apply list_elem_of_fmap.
      - exists (n1, r1). split; [reflexivity|exact Hin1].
      - exists (n2, r2). split; [reflexivity|exact Hin2]. }
    rewrite (final_response_many P task context _ st2 Hlen) in Hf.
    inversion Hf; subst st3 ev3 fin. clear Hf.
    eexists _, _. split.
    + rewrite Hevs, !synth_calls_app, Hsyn1, Hsyn2. reflexivity.
    + destruct (snd (chat_completion P _ (world P st2))) as [rep|e];
        rewrite Hfin in Hrun; inversion Hrun; subst.
      * eexists. split; reflexivity.
      * reflexivity.
  - destruct Hcase as [e Hfail]. rewrite Hfail in Hrun. inversion Hrun; subst.
    rewrite Hret1 in Hin1. inversion Hin1.
  - rewrite Hcase in Hrun. inversion Hrun; subst.
    rewrite Hret1 in Hin1. inversion Hin1.
Qed.
End TaskClaims.

Section StrategyClaims.
Variable P : Platform.
Variable agents : list (string * agent_obj).
Variable cprompt : string.
Variable mprompt : string.
Variable task : string.
Variable user_id : option string.
Variable session_id : value.
Variable context : option (gmap string value).
Variable sched : list nat.

Local Abbreviation run_task :=
  (execute_task P agents cprompt mprompt task user_id session_id context sched).
Local Abbreviation route := (route_task P agents mprompt task user_id context).

(** C1, as the code has it. When the backend's routing output is not valid
    JSON, [route_task] does not raise and returns the default plan:
    strategy ["single"], the default agent alone, and a routing with one
    entry, for the default agent. *)
Theorem route_task_fallback (st : St P) w rep msg :
  chat_completion P (routing_request P agents mprompt task context) (world P st)
  = (w, Ok rep) ->
  json_loads P (reply_content rep) = JSONDecodeError msg ->
  exists text,
    route st
    = (set_world P st w,
       [EvChatCompletion SiteRouter (routing_request P agents mprompt task context)
          (Ok rep)],
       Ok (PlanObject
             (mkPlan (Some "single") (Some [default_agent])
                (Some {[ default_agent := text ]})))).
Proof.
  intros Hc Hl. exists (routing_prompt P agents task context).
  rewrite route_task_eq, Hc. simpl. rewrite Hl. reflexivity.
Qed.

(** C5, as the code has it. Under the sequential strategy, for consecutive
    agents [A] then [B] of the plan, [B] is called right after [A] returned;
    the context [B] receives is a copy of the caller's context, with
    ["previous_agent_output"] set to [A]'s response when that response is
    not empty, and left as the caller gave it when [A]'s response is empty. *)
Theorem sequential_context_propagation (st st1 : St P) ev1 plan pre A B post :
  wired agents = true ->
  route (tick st) = (st1, ev1, Ok (PlanObject plan)) ->
  plan_strategy plan = Some "sequential" ->
  plan_agents plan = Some (pre ++ A :: B :: post) ->
  exists st' evs out before rA after,
    run_task st = (st', evs, Ok out)
    /\ evs = before
             ++ EvAgentReturn A rA
             :: EvCallAgent B (agent_task_for task (default ∅ (plan_routing plan)) B)
                  (Some (if str_truthy (response rA)
                         then <[ "previous_agent_output" := VStr (response rA) ]>
                                (default ∅ context)
                         else default ∅ context))
             :: after
    /\ length (invocations before) = S (length pre)
    /\ length (returned before) = length pre.
Proof.
  intros Hw Hr Hs Ha.
  destruct (run_sequential_wired P agents cprompt task user_id session_id context
              (default ∅ (plan_routing plan)) (pre ++ A :: B :: post) Hw None [] st1)
    as (st2 & ev2 & pairs & Hrun & Htr & _).
  destruct (sequential_trace_pair _ _ _ _ _ _ _ _ _ Htr)
    as (e1 & rA & e2 & Hev2 & Hlen1 & Hlen2).
  destruct (run_inv (final_response P task context (dict_set_all pairs [])) st2)
    as (st3 & ev3 & fin & Hf).
  assert (Hstrat : run_strategy P agents cprompt task user_id session_id context
                     (default ∅ (plan_routing plan))
                     (default "single" (plan_strategy plan)) sched
                     (default [] (plan_agents plan)) st1
                   = (st2, ev2, Ok (dict_set_all pairs []))).
  { rewrite Hs, Ha. exact Hrun. }
  destruct (route_task_events _ _ _ _ _ _ _ _ _ _ Hr) as (Hi1 & Hr1 & _).
  assert (Hout : exists st' out, run_task st = (st', ev1 ++ ev2 ++ ev3, Ok out)).
  { destruct fin as [final|e].
    - eexists _, _.
      exact (execute_task_coordinated P agents cprompt mprompt task user_id session_id
               context sched _ _ _ _ _ _ _ _ _ _ Hr Hstrat Hf).
    - eexists _, _.
      exact (execute_task_final_raises P agents cprompt mprompt task user_id session_id
               context sched _ _ _ _ _ _ _ _ _ _ Hr Hstrat Hf). }
  destruct Hout as (st' & out & Hout).
  exists st', (ev1 ++ ev2 ++ ev3), out, (ev1 ++ e1), rA, (e2 ++ ev3).
  split; [exact Hout|]. split; [|split].
  - rewrite Hev2. unfold enhanced_context. rewrite <- !app_assoc. reflexivity.
  - rewrite invocations_app, Hi1. exact Hlen1.
  - rewrite returned_app, Hr1. exact Hlen2.
Qed.

End StrategyClaims.

Lemma map_fst_label names (ws : list (nat * AgentResult)) :
  map fst (omap (label names) ws) = omap (fun i => names !! i) (map fst ws).
Proof.
  induction ws as [|[i r] ws IH]; simpl; [reflexivity|].
  unfold label at 1. simpl.
  destruct (names !! i); simpl; [f_equal|]; exact IH.
Qed.

Section ParallelClaims.
Variable P : Platform.
Variable agents : list (string * agent_obj).
Variable cprompt : string.
Variable mprompt : string.
Variable task : string.
Variable user_id : option string.
Variable session_id : value.
Variable context : option (gmap string value).
Variable sched : list nat.

Local Abbreviation run_task :=
  (execute_task P agents cprompt mprompt task user_id session_id context sched).
Local Abbreviation route := (route_task P agents mprompt task user_id context).

(** The invocations return in the order they complete. *)
Lemma run_parallel_order agent_tasks names (st st' : St P) evs r :
  wired agents = true ->
  sched ≡ₚ seq 0 (length names) ->
  run_parallel P agents cprompt task user_id session_id context agent_tasks sched names st
  = (st', evs, r) ->
  map fst (returned evs) = omap (fun i => names !! i) sched.
Proof.
  intros Hw Hperm. unfold run_parallel, gather.
  change (map (fun agent_name => _call_agent P agents cprompt agent_name
                 (agent_task_for task agent_tasks agent_name)
                 user_id session_id context) names)
    with (map (parallel_call P agents cprompt task user_id session_id context
                 agent_tasks) names).
  rewrite length_map. unfold completion_order.
  destruct (decide (sched ≡ₚ seq 0 (length names))) as [_|]; [|contradiction].
  assert (Hall : Forall (fun i => (i < length names)%nat) sched).
  { apply Forall_forall. intros i Hi. rewrite Hperm in Hi.
    apply elem_of_seq in Hi. lia. }
  destruct (run_scheduled_wired P agents cprompt task user_id session_id context
              agent_tasks names Hw sched (replicate (length names) None) st Hall)
    as (st1 & ev1 & ws & Hrun & Htr & _).
  destruct (completion_trace_projections _ _ _ _ _ _ Htr) as (Hret & _ & Hfst).
  unfold bind. rewrite Hrun. simpl. intros H. inversion H as [[Hst Hev Hres]].
  rewrite !app_nil_r, Hret, map_fst_label, Hfst. reflexivity.
Qed.

(** C6. Under the parallel strategy, whatever the order in which the
    invocations complete, all of them have returned before anything else
    happens, the keys of [agent_results] are the plan's agents in declared
    order, and each key holds a result its agent returned. *)
Theorem parallel_results_in_plan_order (st st1 : St P) ev1 plan names :
  wired agents = true ->
  route (tick st) = (st1, ev1, Ok (PlanObject plan)) ->
  plan_strategy plan = Some "parallel" ->
  plan_agents plan = Some names ->
  exists st' evs out before after,
    run_task st = (st', evs, Ok out)
    /\ evs = before ++ after
    /\ map fst (returned before) ≡ₚ names
    /\ (sched ≡ₚ seq 0 (length names) ->
        map fst (returned before) = omap (fun i => names !! i) sched)
    /\ synth_calls before = []
    /\ invocations after = []
    /\ returned after = []
    /\ forall o, out = Coordinated o ->
         dict_keys (agent_results o) = first_occurrences names
         /\ (NoDup names -> dict_keys (agent_results o) = names)
         /\ forall n x, dict_get n (agent_results o) = Some x -> (n, x) ∈ returned before.
Proof.
  intros Hw Hr Hs Ha.
  destruct (execute_task_stages P agents cprompt mprompt task user_id session_id
              context sched st Hw) as (st1' & ev1' & routed & Hr' & Hcase).
  rewrite Hr in Hr'. inversion Hr'; subst st1' ev1' routed. clear Hr'.
  destruct Hcase as (st2 & ev2 & pairs & st3 & ev3 & fin & Hrun & Hfst & Hperm & Hsyn2
                     & _ & Hf & Hfin).
  rewrite Hs, Ha in Hrun, Hfst. simpl in Hrun, Hfst.
  change (invoked "parallel" names) with names in Hfst.
  destruct (route_task_events _ _ _ _ _ _ _ _ _ _ Hr) as (_ & Hret1 & Hsyn1).
  destruct (final_response_events _ _ _ _ _ _ _ _ Hf) as (Hinv3 & Hret3).
  assert (Hbefore : returned (ev1 ++ ev2) = returned ev2).
  { rewrite returned_app, Hret1. reflexivity. }
  assert (Hout : exists st' out,
             run_task st = (st', (ev1 ++ ev2) ++ ev3, Ok out)
             /\ forall o, out = Coordinated o -> agent_results o = dict_set_all pairs []).
  { destruct fin as [final|e]; rewrite <- app_assoc; eexists _, _;
      (split; [exact Hfin|]); intros o Ho; inversion Ho; reflexivity. }
  destruct Hout as (st' & out & Hout & Hres).
  exists st', ((ev1 ++ ev2) ++ ev3), out, (ev1 ++ ev2), ev3.
  split; [exact Hout|]. split; [reflexivity|].
  split; [rewrite Hbefore, <- Hfst; apply Permutation_map; exact Hperm|].
  split; [intros Hsched; rewrite Hbefore;
          exact (run_parallel_order _ _ _ _ _ _ Hw Hsched Hrun)|].
  split; [rewrite synth_calls_app, Hsyn1, Hsyn2; reflexivity|].
  split; [exact Hinv3|]. split; [exact Hret3|].
  intros o Ho. rewrite (Hres o Ho).
  assert (Hkeys : dict_keys (dict_set_all pairs []) = first_occurrences names).
  { rewrite dict_keys_set_all, Hfst. reflexivity. }
  split; [exact Hkeys|]. split.
  - intros Hnd. rewrite Hkeys. apply fresh_keys_id. exact Hnd.
  - intros n x Hget. rewrite Hbefore, Hperm.
    apply dict_get_set_all in Hget as [Hget|Hget]; [exact Hget|discriminate].
Qed.
End ParallelClaims.

(** ** Task runs *)

Lemma route_task_fallback_witness :
  exists st' evs text,
    route_task demo main_agents "" "hello" None None (start demo [says "not json"])
    = (st', evs,
       Ok (PlanObject
             (mkPlan (Some "single") (Some ["experiment_conductor"])
                (Some {[ "experiment_conductor" := text ]})))).
Proof.
  destruct (route_task_fallback demo main_agents "" "hello" None None
              (start demo [says "not json"]) [] (Reply "not json" 10 "gemini-2.0-flash")
              "Expecting value: line 1 column 1 (char 0)" eq_refl eq_refl)
    as (text & Hroute).
  eexists _, _, text. exact Hroute.
Defined.

(** C1 as stated fails twice over: after text that is not JSON the routing
    holds the routing prompt, not the task; and a reply that is JSON but not
    a plan object is returned as it is, not replaced by the default plan. *)
Lemma fallback_routing_is_not_the_task :
  (exists st' evs plan prompt,
     route_task demo main_agents "" "hello" None None (start demo [says "not json"])
     = (st', evs, Ok (PlanObject plan))
     /\ plan_routing plan = Some {[ "experiment_conductor" := prompt ]}
     /\ prompt <> "hello")
  /\ (exists st' evs,
        route_task demo main_agents "" "hello" None None (start demo [says "[]"])
        = (st', evs, Ok (NonObject KList))).
Proof.
  split.
  - eexists _, _, _, _. split; [reflexivity|]. split; [reflexivity|].
    vm_compute. discriminate.
  - eexists _, _. reflexivity.
Qed.

Lemma unknown_strategy_is_an_error_witness :
  exists st' evs,
    run_demo [says (plan_text "iterative" ["experiment_conductor"; "data_analyst"])] []
    = (st', evs, Ok (Failed coordination_apology "list index out of range" "error"))
    /\ invocations evs = [].
Proof.
  eexists _, _.
  destruct (unknown_strategy_is_an_error demo main_agents "" "" "hello" None VNone None []
              (start demo [says (plan_text "iterative"
                                   ["experiment_conductor"; "data_analyst"])])
              _ _ _ "iterative" eq_refl eq_refl
              ltac:(discriminate) ltac:(discriminate) ltac:(discriminate))
    as (Hrun & Hinv & _).
  split; [exact Hrun|exact Hinv].
Defined.

Lemma single_result_passthrough_witness :
  exists st' evs o,
    run_demo [says "not json"; says "Welcome."] [] = (st', evs, Ok (Coordinated o))
    /\ out_response o = "Welcome."
    /\ synth_calls evs = [].
Proof.
  destruct (single_result_passthrough demo main_agents "" "" "hello" None VNone None []
              (start demo [says "not json"; says "Welcome."])
              _ _ _ "experiment_conductor" _ eq_refl eq_refl eq_refl)
    as (o & Hout & Hresp & _ & Hsyn).
  eexists _, _, o. split; [|split; [exact Hresp|exact Hsyn]].
  rewrite <- Hout. reflexivity.
Defined.

Lemma synthesis_for_distinct_agents_witness :
  exists st' evs o req,
    run_demo [says conductor_then_analyst; says "Welcome."; says "Merged."] []
    = (st', evs, Ok (Coordinated o))
    /\ synth_calls evs = [(req, says "Merged.")]
    /\ out_response o = "Merged.".
Proof.
  destruct (synthesis_for_distinct_agents demo main_agents "" "" "hello" None VNone None []
              (start demo [says conductor_then_analyst; says "Welcome."; says "Merged."])
              _ _ _ "experiment_conductor" _ "data_analyst" _
              eq_refl eq_refl
              ltac:(vm_compute; left)
              ltac:(vm_compute; right; left)
              ltac:(discriminate))
    as (req & answer & Hsyn & Hans).
  vm_compute in Hsyn. injection Hsyn as <- <-.
  destruct Hans as (o & Hout & Hresp).
  eexists _, _, o, _. split; [rewrite <- Hout; reflexivity|].
  split; [reflexivity|exact Hresp].
Defined.

(** C4 as stated fails when the plan names one agent twice: two results
    are produced, they share a key of [agent_results], and the second is
    passed through without any synthesis call. *)
Lemma repeated_agent_is_not_synthesized :
  exists st' evs o,
    run_demo [says analyst_twice] [] = (st', evs, Ok (Coordinated o))
    /\ returned evs = [ ("data_analyst", pending_result "data_analyst");
                        ("data_analyst", pending_result "data_analyst") ]
    /\ synth_calls evs = []
    /\ out_response o = "DataAnalyst integration pending for this task type".
Proof.
  eexists _, _, _. split; [vm_compute; reflexivity|].
  repeat split.
Qed.

Lemma sequential_context_propagation_witness :
  exists st' evs out before rA after,
    run_demo [says conductor_then_analyst; says "Welcome."; says "Merged."] []
    = (st', evs, Ok out)
    /\ evs = before
             ++ EvAgentReturn "experiment_conductor" rA
             :: EvCallAgent "data_analyst" "hello"
                  (Some (if str_truthy (response rA)
                         then <[ "previous_agent_output" := VStr (response rA) ]> ∅
                         else ∅))
             :: after
    /\ length (invocations before) = 1%nat.
Proof.
  destruct (sequential_context_propagation demo main_agents "" "" "hello" None VNone None []
              (start demo [says conductor_then_analyst; says "Welcome."; says "Merged."])
              _ _ (plan_of "sequential" ["experiment_conductor"; "data_analyst"])
              [] "experiment_conductor" "data_analyst" []
              eq_refl eq_refl eq_refl eq_refl)
    as (st' & evs & out & before & rA & after & Hrun & Hevs & Hlen & _).
  exists st', evs, out, before, rA, after. split; [exact Hrun|]. split; assumption.
Defined.

(** C5 as stated fails when the first agent answers with the empty text:
    the second agent's context has no ["previous_agent_output"]. *)
Lemma empty_response_is_not_propagated :
  exists st' evs out rA ctxB,
    run_demo [says conductor_then_analyst; says ""; says "Merged."] []
    = (st', evs, Ok out)
    /\ returned evs !! 0%nat = Some ("experiment_conductor", rA)
    /\ response rA = ""
    /\ invocations evs !! 1%nat = Some ("data_analyst", "hello", Some ctxB)
    /\ ctxB !! "previous_agent_output" = None.
Proof.
  eexists _, _, _, _, _. split; [vm_compute; reflexivity|].
  repeat split.
Qed.


Lemma parallel_results_in_plan_order_witness :
  exists st' evs o before after,
    run_demo [says fan_out; says "Welcome."; says "Merged."] [2; 1; 0]%nat
    = (st', evs, Ok (Coordinated o))
    /\ evs = before ++ after
    /\ map fst (returned before) = ["data_analyst"; "ghost"; "experiment_conductor"]
    /\ dict_keys (agent_results o) = ["experiment_conductor"; "ghost"; "data_analyst"].
Proof.
  destruct (parallel_results_in_plan_order demo main_agents "" "" "hello" None VNone None
              [2; 1; 0]%nat
              (start demo [says fan_out; says "Welcome."; says "Merged."])
              _ _ (plan_of "parallel" ["experiment_conductor"; "ghost"; "data_analyst"])
              ["experiment_conductor"; "ghost"; "data_analyst"]
              eq_refl eq_refl eq_refl eq_refl)
    as (st' & evs & out & before & after & Hrun & Hevs & _ & Horder & _ & _ & _ & Hres).
  assert (Hco : exists o, out = Coordinated o).
  { vm_compute in Hrun. inversion Hrun. eauto. }
  destruct Hco as [o ->].
  destruct (Hres o eq_refl) as (_ & Hkeys & _).
  exists st', evs, o, before, after. split; [exact Hrun|]. split; [exact Hevs|]. split.
  - apply Horder. refine (bool_decide_unpack _ _). vm_compute. exact I.
  - apply Hkeys. refine (bool_decide_unpack _ _). vm_compute. exact I.
Defined.

(** * Further properties *)

(** ** What a run leaves of the counters *)

Section Frames.
Context {P : Platform}.

Lemma keeps_ret {A} (a : A) : keeps_coordinations (ret (P := P) a).
Proof. intros st st' evs r H. inversion H. reflexivity. Qed.

Lemma keeps_raise {A} (e : exn) : keeps_coordinations (raise (P := P) (A := A) e).
Proof. intros st st' evs r H. inversion H. reflexivity. Qed.

Lemma keeps_lift {A} (x : res A) : keeps_coordinations (lift (P := P) x).
Proof. intros st st' evs r H. inversion H. reflexivity. Qed.

Lemma keeps_emit (e : event) : keeps_coordinations (emit P e).
Proof. intros st st' evs r H. inversion H. reflexivity. Qed.

Lemma keeps_now : keeps_coordinations (now P).
Proof. intros st st' evs r H. rewrite now_eq in H. inversion H. reflexivity. Qed.

Lemma keeps_utcnow : keeps_coordinations (utcnow P).
Proof. intros st st' evs r H. rewrite utcnow_eq in H. inversion H. reflexivity. Qed.

Lemma keeps_llm site req : keeps_coordinations (llm P site req).
Proof.
  intros st st' evs r H. unfold llm in H.
  destruct (chat_completion P req (world P st)). inversion H. reflexivity.
Qed.

Lemma keeps_incr_interactions : keeps_coordinations (incr_interactions P).
Proof. intros st st' evs r H. inversion H. reflexivity. Qed.

Lemma keeps_bind {A B} (c : M P A) (k : A -> M P B) :
  keeps_coordinations c -> (forall a, keeps_coordinations (k a)) ->
  keeps_coordinations (bind c k).
Proof.
  intros Hc Hk st st' evs r H. unfold bind in H.
  destruct (c st) as [[st1 ev1] [a|e]] eqn:Ec.
  - destruct (k a st1) as [[st2 ev2] r2] eqn:Ek. inversion H; subst.
    rewrite (Hk a _ _ _ _ Ek). exact (Hc _ _ _ _ Ec).
  - inversion H; subst. exact (Hc _ _ _ _ Ec).
Qed.

Lemma keeps_try {A} (c : M P A) (h : exn -> M P A) :
  keeps_coordinations c -> (forall e, keeps_coordinations (h e)) ->
  keeps_coordinations (try_except c h).
Proof.
  intros Hc Hh st st' evs r H. unfold try_except in H.
  destruct (c st) as [[st1 ev1] [a|e]] eqn:Ec.
  - inversion H; subst. exact (Hc _ _ _ _ Ec).
  - destruct (h e st1) as [[st2 ev2] r2] eqn:Eh. inversion H; subst.
    rewrite (Hh e _ _ _ _ Eh). exact (Hc _ _ _ _ Ec).
Qed.
End Frames.

Ltac keeps :=
  repeat lazymatch goal with
    | |- keeps_coordinations (bind _ _) => apply keeps_bind; [|intros ?]
    | |- keeps_coordinations (try_except _ _) => apply keeps_try; [|intros ?]
    | |- keeps_coordinations (ret _) => apply keeps_ret
    | |- keeps_coordinations (raise _) => apply keeps_raise
    | |- keeps_coordinations (lift _) => apply keeps_lift
    | |- keeps_coordinations (emit _ _) => apply keeps_emit
    | |- keeps_coordinations (now _) => apply keeps_now
    | |- keeps_coordinations (utcnow _) => apply keeps_utcnow
    | |- keeps_coordinations (llm _ _ _) => apply keeps_llm
    | |- keeps_coordinations (incr_interactions _) => apply keeps_incr_interactions
    end.

Section CounterFacts.
Variable P : Platform.
Variable agents : list (string * agent_obj).
Variable cprompt : string.
Variable mprompt : string.

Lemma keeps_chat msgs sid uid md : keeps_coordinations (chat P cprompt msgs sid uid md).
Proof. unfold chat. keeps. Qed.

Lemma keeps_call_agent n t uid sid c :
  keeps_coordinations (_call_agent P agents cprompt n t uid sid c).
Proof.
  unfold _call_agent. keeps.
  destruct (dict_get n agents) as [obj|]; [|keeps].
  destruct (String.eqb n "experiment_conductor").
  - destruct obj; first [apply keeps_chat | keeps].
  - destruct (String.eqb n "data_analyst"); keeps.
Qed.

Lemma keeps_run_scheduled {A} (cs : list (M P A)) :
  Forall keeps_coordinations cs ->
  forall sched slots, keeps_coordinations (run_scheduled P cs sched slots).
Proof.
  intros Hcs. induction sched as [|i rest IH]; intros slots; simpl; [keeps|].
  destruct (cs !! i) as [c|] eqn:Ei; [|apply IH].
  apply keeps_bind; [|intros r; apply IH].
  exact (proj1 (Forall_forall _ _) Hcs c (list_elem_of_lookup_2 _ _ _ Ei)).
Qed.

Lemma keeps_run_strategy task uid sid ctx agent_tasks strategy sched names :
  keeps_coordinations
    (run_strategy P agents cprompt task uid sid ctx agent_tasks strategy sched names).
Proof.
  unfold run_strategy.
  destruct (String.eqb strategy "single").
  { unfold run_single. keeps. apply keeps_call_agent. }
  destruct (String.eqb strategy "parallel").
  { unfold run_parallel, gather. keeps.
    apply keeps_run_scheduled. apply Forall_forall. intros c Hc.
    apply list_elem_of_fmap in Hc as (n & -> & _). apply keeps_call_agent. }
  destruct (String.eqb strategy "sequential"); [|keeps].
  generalize (@None string), (@nil (string * AgentResult)).
  induction names as [|a rest IH]; intros prev acc; simpl; [keeps|].
  apply keeps_bind; [apply keeps_call_agent|intros r; apply IH].
Qed.

Lemma keeps_route_task task uid ctx :
  keeps_coordinations (route_task P agents mprompt task uid ctx).
Proof.
  unfold route_task. keeps.
  destruct (json_loads P (reply_content a)); keeps.
Qed.

Lemma keeps_final_response task ctx results :
  keeps_coordinations (final_response P task ctx results).
Proof.
  unfold final_response.
  destruct (1 <? length results)%nat.
  - unfold _synthesize_results. keeps.
  - destruct (dict_keys results) as [|k ks]; [keeps|].
    destruct (dict_get k results); keeps.
Qed.
End CounterFacts.

(** ** The task entry points *)

Section TaskEntry.
Variable P : Platform.
Variable agents : list (string * agent_obj).
Variable cprompt : string.
Variable mprompt : string.
Variable model_name : string.
Variable task : string.
Variable user_id : option string.
Variable session_id : value.
Variable context : option (gmap string value).
Variable sched : list nat.

Local Abbreviation run_task :=
  (execute_task P agents cprompt mprompt task user_id session_id context sched).
Local Abbreviation route := (route_task P agents mprompt task user_id context).

(** Whatever the registry, a run ends in a coordinated outcome, counted
    once, or in the error outcome, not counted. *)
Lemma execute_task_cases (st : St P) :
  exists st' evs out,
    run_task st = (st', evs, Ok out)
    /\ ((exists o, out = Coordinated o
                   /\ total_coordinations P st' = S (total_coordinations P st))
        \/ (exists e, out = failed e
                      /\ total_coordinations P st' = total_coordinations P st)).
Proof.
  destruct (run_inv route (tick st)) as (st1 & ev1 & routed & Hr).
  pose proof (keeps_route_task P agents mprompt task user_id context _ _ _ _ Hr) as K1.
  simpl in K1.
  destruct routed as [[plan|k]|e].
  - destruct (run_inv (run_strategy P agents cprompt task user_id session_id context
                         (default ∅ (plan_routing plan))
                         (default "single" (plan_strategy plan)) sched
                         (default [] (plan_agents plan))) st1)
      as (st2 & ev2 & ran & Hs).
    pose proof (keeps_run_strategy P agents cprompt _ _ _ _ _ _ _ _ _ _ _ _ Hs) as K2.
    destruct ran as [results|e].
    + destruct (run_inv (final_response P task context results) st2)
        as (st3 & ev3 & fin & Hf).
      pose proof (keeps_final_response P _ _ _ _ _ _ _ Hf) as K3.
      destruct fin as [final|e].
      * eexists _, _, _. split.
        { exact (execute_task_coordinated P agents cprompt mprompt task user_id
                   session_id context sched _ _ _ _ _ _ _ _ _ _ Hr Hs Hf). }
        left. eexists. split; [reflexivity|]. simpl. congruence.
      * eexists _, _, _. split.
        { exact (execute_task_final_raises P agents cprompt mprompt task user_id
                   session_id context sched _ _ _ _ _ _ _ _ _ _ Hr Hs Hf). }
        right. eexists. split; [reflexivity|]. congruence.
    + eexists _, _, _. split.
      { exact (execute_task_strategy_raises P agents cprompt mprompt task user_id
                 session_id context sched _ _ _ _ _ _ _ Hr Hs). }
      right. eexists. split; [reflexivity|]. congruence.
  - eexists _, _, _. split.
    { exact (execute_task_not_an_object P agents cprompt mprompt task user_id
               session_id context sched _ _ _ _ Hr). }
    right. eexists. split; [reflexivity|]. exact K1.
  - eexists _, _, _. split.
    { exact (execute_task_route_raises P agents cprompt mprompt task user_id
               session_id context sched _ _ _ _ Hr). }
    right. eexists. split; [reflexivity|]. exact K1.
Qed.


(** X2. [get_status] reports the registry's names and a count that a run of
    [execute_task] raises by one exactly when its outcome is coordinated;
    the error outcome is not counted. *)
Theorem coordinations_are_counted (st : St P) :
  exists st' evs out before after,
    run_task st = (st', evs, Ok out)
    /\ get_status P agents model_name st = (st, [], Ok before)
    /\ get_status P agents model_name st' = (st', [], Ok after)
    /\ available_agents after = Some (dict_keys agents)
    /\ status_total after
       = match out with
         | Coordinated _ => S (status_total before)
         | Failed _ _ _ => status_total before
         end.
Proof.
  destruct (execute_task_cases st) as (st' & evs & out & Hrun & Hcase).
  eexists st', evs, out, _, _. split; [exact Hrun|].
  split; [reflexivity|]. split; [reflexivity|]. split; [reflexivity|]. simpl.
  destruct Hcase as [(o & -> & Hn)|(e & -> & Hn)]; exact Hn.
Qed.

(** X4. When the routing backend call raises, no agent is invoked, nothing
    is counted, and the caller gets the error outcome with the exception's
    text. *)
Theorem routing_failure_is_an_error_outcome (st : St P) w e :
  chat_completion P (routing_request P agents mprompt task context) (world P (tick st))
  = (w, Raise e) ->
  run_task st
  = (set_world P (tick st) w,
     [EvChatCompletion SiteRouter (routing_request P agents mprompt task context)
        (Raise e)],
     Ok (Failed coordination_apology (str_exn e) "error"))
  /\ total_coordinations P (set_world P (tick st) w) = total_coordinations P st.
Proof.
  intros Hc. split; [|reflexivity].
  apply execute_task_route_raises. rewrite route_task_eq, Hc. reflexivity.
Qed.
End TaskEntry.


(** ** The conductor *)

Lemma filter_nil_none {A} (f : A -> bool) (l : list A) :
  filter (fun x => Is_true (f x)) l = [] -> Forall (fun x => f x = false) l.
Proof.
  induction l as [|x l IH]; [constructor|].
  rewrite filter_cons. destruct (decide (Is_true (f x))) as [Hx|Hx]; [discriminate|].
  intros Hnil. constructor; [|auto].
  destruct (f x); [exfalso; apply Hx; exact I|reflexivity].
Qed.

Section ConductorClaims.
Variable P : Platform.
Variable cprompt : string.

(** [chat] when the backend answers. *)
Lemma chat_answered msgs sid uid md (st : St P) w rep :
  chat_completion P (conductor_request cprompt msgs) (world P (tick st)) = (w, Ok rep) ->
  exists st' r,
    chat P cprompt msgs sid uid md st
    = (st', [EvChatCompletion SiteConductor (conductor_request cprompt msgs) (Ok rep)],
       Ok r)
    /\ error r = None
    /\ total_interactions P st' = S (total_interactions P st)
    /\ ((response r = reply_content rep
         /\ Forall (fun p => re_search P p (response r) = false) PROHIBITED_PATTERNS)
        \/ (response r = conductor_fallback
            /\ Exists (fun p => re_search P p (reply_content rep) = true)
                 PROHIBITED_PATTERNS)).
Proof.
  intros Hc. unfold chat, conductor_request in *.
  eexists _, _. split.
  - eapply eq_trans.
    + eapply bind_ok; [apply now_eq|].
      apply try_ok. eapply bind_ok.
      * unfold llm. rewrite Hc. reflexivity.
      * eapply bind_ok; [reflexivity|].
        eapply bind_ok; [apply now_eq|reflexivity].
    + simpl. reflexivity.
  - simpl. split; [reflexivity|]. split; [reflexivity|].
    unfold validate_agent_response. simpl. rewrite app_nil_r.
    destruct (filter (fun p => Is_true (re_search P p (reply_content rep)))
                PROHIBITED_PATTERNS) as [|p found] eqn:Hfound.
    + left. split; [reflexivity|]. apply filter_nil_none. exact Hfound.
    + right. split; [reflexivity|].
      assert (Hin : p ∈ filter (fun p => Is_true (re_search P p (reply_content rep)))
                        PROHIBITED_PATTERNS) by (rewrite Hfound; left).
      apply list_elem_of_filter in Hin as [Hp Hin].
      apply Exists_exists. exists p. split; [exact Hin|].
      destruct (re_search P p (reply_content rep)); [reflexivity|contradiction].
Qed.

(** [chat] when the backend raises. *)
Lemma chat_unanswered msgs sid uid md (st : St P) w e :
  chat_completion P (conductor_request cprompt msgs) (world P (tick st)) = (w, Raise e) ->
  chat P cprompt msgs sid uid md st
  = (set_world P (tick st) w,
     [EvChatCompletion SiteConductor (conductor_request cprompt msgs) (Raise e)],
     Ok (mkAgentResult conductor_apology (Some (str_exn e)) None None None
           (Some (ChatMetadata sid None None)))).
Proof.
  intros Hc. unfold chat, conductor_request in *.
  eapply eq_trans.
  - eapply bind_ok; [apply now_eq|].
    eapply try_raise; [|reflexivity].
    eapply bind_raise. unfold llm. rewrite Hc. reflexivity.
  - reflexivity.
Qed.


(** X5. A response of [chat] that is neither the safe fallback nor the
    apology is the backend's text, and no prohibited pattern matches it:
    a text that a pattern matches is never handed on. *)
Theorem chat_hands_on_only_clean_text msgs sid uid md (st : St P) :
  exists st' evs r,
    chat P cprompt msgs sid uid md st = (st', evs, Ok r)
    /\ (response r = conductor_fallback
        \/ response r = conductor_apology
        \/ Forall (fun p => re_search P p (response r) = false) PROHIBITED_PATTERNS).
Proof.
  destruct (chat_completion P (conductor_request cprompt msgs) (world P (tick st)))
    as [w [rep|e]] eqn:Hc.
  - destruct (chat_answered msgs sid uid md st w rep Hc)
      as (st' & r & Hrun & _ & _ & Hcase).
    eexists st', _, r. split; [exact Hrun|].
    destruct Hcase as [[_ Hclean]|[Hfb _]]; auto.
  - eexists _, _, _. split; [exact (chat_unanswered msgs sid uid md st w e Hc)|].
    right. left. reflexivity.
Qed.

(** X6. [chat] calls the backend exactly once, with its system prompt ahead
    of the caller's messages; [total_interactions] goes up by one when the
    backend answered and stays when it raised, in which case the result
    carries the exception's text as its error. *)
Theorem chat_counts_answers msgs sid uid md (st : St P) :
  exists st' evs r answer,
    chat P cprompt msgs sid uid md st = (st', evs, Ok r)
    /\ backend_calls evs = [(SiteConductor, conductor_request cprompt msgs, answer)]
    /\ match answer with
       | Ok _ => error r = None
                 /\ total_interactions P st' = S (total_interactions P st)
       | Raise e => error r = Some (str_exn e)
                    /\ response r = conductor_apology
                    /\ total_interactions P st' = total_interactions P st
       end.
Proof.
  destruct (chat_completion P (conductor_request cprompt msgs) (world P (tick st)))
    as [w [rep|e]] eqn:Hc.
  - destruct (chat_answered msgs sid uid md st w rep Hc)
      as (st' & r & Hrun & Herr & Hcount & _).
    eexists st', _, r, (Ok rep). split; [exact Hrun|]. split; [reflexivity|].
    split; assumption.
  - eexists _, _, _, (Raise e).
    split; [exact (chat_unanswered msgs sid uid md st w e Hc)|].
    split; [reflexivity|]. repeat split.
Qed.

Lemma action_at_step experiment_type step :
  hashable experiment_type = true ->
  0 <= step ->
  _get_next_action experiment_type step
  = Ok (default "experiment_complete"
          (workflow_of experiment_type !! Z.to_nat step)).
Proof.
  intros Hh Hstep. unfold _get_next_action. rewrite Hh.
  fold (workflow_of experiment_type).
  set (wf := workflow_of experiment_type).
  destruct (Z.ltb_spec step (Z.of_nat (length wf))) as [Hlt|Hge].
  - unfold py_index.
    destruct (Z.ltb_spec step 0) as [|_]; [lia|].
    destruct (Z.ltb_spec step 0) as [|_]; [lia|].
    destruct (lookup_lt_is_Some_2 wf (Z.to_nat step) ltac:(lia)) as [x Hx].
    rewrite Hx. simpl.
    assert (Hn : nth_error wf (Z.to_nat step) = Some x).
    { rewrite <- Hx. symmetry. clear. generalize (Z.to_nat step).
      induction wf as [|a l IH]; intros [|n]; simpl; auto. }
    rewrite Hn. reflexivity.
  - rewrite lookup_ge_None_2 by lia. reflexivity.
Qed.

(** X7. With a step that is not negative [_get_next_action] never raises
    on a hashable experiment type: it gives the step's action, and
    ["experiment_complete"] past the end of the type's list, which is
    empty for a type it does not know. *)
Theorem next_action_from_zero experiment_type step :
  hashable experiment_type = true ->
  0 <= step ->
  _get_next_action experiment_type step
  = Ok (default "experiment_complete"
          (workflow_of experiment_type !! Z.to_nat step)).
Proof. apply action_at_step. Qed.

End ConductorClaims.

(** ** More on the workflow executor *)

Lemma collect_keeps_keys (d : gmap string value) (r : StepResult) (k : string) :
  is_Some (d !! k) -> is_Some (collect d r !! k).
Proof.
  intros Hk. unfold collect, dict_update.
  destruct (output_data r) as [o|]; [|exact Hk].
  destruct (decide (o = ∅)); [exact Hk|].
  rewrite lookup_union. destruct Hk as [x ->]. destruct (o !! k); eauto.
Qed.

Lemma collect_all_keeps_keys (rs : list StepResult) : forall (d : gmap string value) k,
  is_Some (d !! k) -> is_Some (fold_left collect rs d !! k).
Proof.
  induction rs as [|r rs IH]; intros d k Hk; simpl; [exact Hk|].
  apply IH. apply collect_keeps_keys. exact Hk.
Qed.

Section WorkflowExtras.
Variable P : Platform.
Variable agents : list (string * agent_obj).
Variable cprompt : string.
Variable load : string -> World P -> World P * res (list WorkflowStep).

Local Abbreviation dispatch := (dispatch_step P agents cprompt).
Local Abbreviation loop := (workflow_loop P agents cprompt).
Local Abbreviation run_workflow := (execute_workflow_from P agents cprompt load).

(** The loop counts the steps whose handler returned, and logs one entry
    more when it stopped early. *)
Lemma loop_counts steps : forall uid ls (st st' : St P) evs ls',
  loop steps uid ls st = (st', evs, Ok ls') ->
  exists k,
    (current_step ls' = current_step ls + k
     /\ k <= length steps
     /\ length (loop_log ls')
        = length (loop_log ls) + k + (if k =? length steps then 0 else 1))%nat.
Proof.
  induction steps as [|step rest IH]; intros uid ls st st' evs ls' Hrun.
  - simpl in Hrun. inversion Hrun; subst. exists 0%nat. simpl. lia.
  - destruct (run_inv (dispatch step uid (loop_data ls)) (tick st))
      as (st1 & evd & [r|e] & Hd).
    + rewrite (loop_cons_ok _ _ _ _ _ _ _ _ _ _ _ Hd) in Hrun.
      match type of Hrun with
      | context [loop rest uid ?l ?s] =>
          destruct (loop rest uid l s) as [[st2 ev2] r2] eqn:Hrest
      end.
      inversion Hrun; subst.
      destruct (IH _ _ _ _ _ _ Hrest) as (k & Hcur & Hle & Hlen).
      simpl in Hcur, Hlen. rewrite length_app in Hlen. simpl in Hlen.
      exists (S k). simpl.
      destruct (Nat.eqb_spec k (length rest)); lia.
    + rewrite (loop_cons_raise _ _ _ _ _ _ _ _ _ _ _ Hd) in Hrun.
      inversion Hrun; subst. exists 0%nat. simpl. rewrite length_app. simpl. lia.
Qed.

(** X9. The log of a run has as many entries as steps completed when the
    run completed, and one more when it failed; never more steps are
    completed than the template has. *)
Theorem log_length_tells_the_status tid uid init (st : St P) w1 steps :
  load tid (world P (tick st)) = (w1, Ok steps) ->
  exists st' evs run,
    run_workflow tid uid init st = (st', evs, Ok run)
    /\ (steps_completed run <= total_steps run)%nat
    /\ length (execution_log run)
       = (steps_completed run + if String.eqb (run_status run) "completed" then 0 else 1)%nat.
Proof.
  intros Hload.
  destruct (loop_returns P agents cprompt steps uid (initial_loop init)
              (set_world P (tick st) w1))
    as (st2 & evs & ls & new & Hrun & _).
  destruct (loop_counts _ _ _ _ _ _ _ Hrun) as (k & Hcur & Hle & Hlen).
  simpl in Hcur, Hlen.
  eexists _, _, _. split; [exact (execute_workflow_eq _ _ _ _ _ _ _ _ _ _ _ _ _ Hload Hrun)|].
  simpl. rewrite Hcur, Hlen. split; [exact Hle|].
  destruct (Nat.eqb_spec k (length steps)); reflexivity.
Qed.

(** X10. Collected data only grows: every key of the initial data is still
    a key of [collected_data], whatever the steps did. *)
Theorem collected_data_keeps_its_keys tid uid init (st : St P) w1 steps :
  load tid (world P (tick st)) = (w1, Ok steps) ->
  exists st' evs run,
    run_workflow tid uid init st = (st', evs, Ok run)
    /\ forall k, is_Some (default ∅ init !! k) -> is_Some (collected_data run !! k).
Proof.
  intros Hload.
  destruct (loop_returns P agents cprompt steps uid (initial_loop init)
              (set_world P (tick st) w1))
    as (st2 & evs & ls & new & Hrun & _ & _ & _ & Hdata & _).
  eexists _, _, _. split; [exact (execute_workflow_eq _ _ _ _ _ _ _ _ _ _ _ _ _ Hload Hrun)|].
  simpl. intros k Hk. rewrite Hdata. apply collect_all_keeps_keys. exact Hk.
Qed.



End WorkflowExtras.

(** ** Guidance *)

Section GuidanceClaims.
Variable P : Platform.
Variable agents : list (string * agent_obj).
Variable cprompt : string.


End GuidanceClaims.

(** ** The endpoints *)

Section EndpointClaims.
Variable P : Platform.
Variable agents : list (string * agent_obj).
Variable cprompt : string.
Variable ADMIN_API_KEY : string.



(** X15. [POST /agent/chat] for an agent other than the conductor, the
    message not being flagged: the 404 raised inside the handler is
    caught by the handler itself, and the answer is status 500 with the
    fixed text; no agent is asked. *)
Theorem agent_chat_unknown_agent_is_500 request (st : St P) :
  (forall m,
     last (filter (fun msg => role msg = "user") (req_messages request)) = Some m ->
     validate_message P (content m) None = []) ->
  req_agent_name request <> "experiment_conductor" ->
  agent_chat P cprompt request st
  = (st, [], Ok (HTTPError 500 "An error occurred processing your request")).
Proof.
  intros Hclean Hname. unfold agent_chat.
  destruct (last (filter (fun msg => role msg = "user") (req_messages request)))
    as [m|] eqn:Hlast.
  - rewrite (Hclean m eq_refl).
    destruct (String.eqb_spec (req_agent_name request) "experiment_conductor");
      [contradiction|reflexivity].
  - destruct (String.eqb_spec (req_agent_name request) "experiment_conductor");
      [contradiction|reflexivity].
Qed.

(** X16. [POST /meta/workflow] with an admin key configured and another
    (or no) key sent: status 403, and the workflow is not run. *)
Theorem workflow_endpoint_wants_the_key x_admin_key tid uid init (st : St P) :
  ADMIN_API_KEY <> "" ->
  x_admin_key <> Some ADMIN_API_KEY ->
  execute_workflow_endpoint P agents cprompt ADMIN_API_KEY x_admin_key tid uid init st
  = (st, [], Ok (HTTPError 403 "Invalid admin API key")).
Proof.
  intros Hset Hkey. unfold execute_workflow_endpoint, verify_admin_key, str_truthy.
  destruct (String.eqb_spec ADMIN_API_KEY ""); [contradiction|]. simpl.
  rewrite bool_decide_eq_false_2 by exact Hkey. reflexivity.
Qed.

(** X17. [POST /meta/workflow] once the key is accepted always answers with
    a run, never with an error status: the template in use has one step,
    which is attempted and logged, completed or not. *)
Theorem workflow_endpoint_always_runs x_admin_key tid uid init (st : St P) :
  verify_admin_key ADMIN_API_KEY x_admin_key = Ok true ->
  exists st' evs run,
    execute_workflow_endpoint P agents cprompt ADMIN_API_KEY x_admin_key tid uid init st
    = (st', evs, Ok (Respond run))
    /\ total_steps run = 1%nat
    /\ length (execution_log run) = 1%nat
    /\ steps_attempted evs = mock_template
    /\ (run_status run = "completed" <-> steps_completed run = 1%nat).
Proof.
  intros Hkey. unfold execute_workflow_endpoint. rewrite Hkey.
  set (step := mkStep 0 "participant_guidance" "Introduction"
                 (Some "experiment_conductor") ∅).
  destruct (run_inv (dispatch_step P agents cprompt step uid
                       (loop_data (initial_loop init)))
              (tick (set_world P (tick st) (world P (tick st)))))
    as (st1 & evd & [r|e] & Hd);
    pose proof (dispatch_events _ _ _ _ _ _ _ _ _ _ Hd) as (_ & _ & _ & Hnone).
  - pose proof (loop_cons_ok P agents cprompt step [] uid _ _ _ _ _ Hd) as Hloop.
    simpl in Hloop.
    pose proof (execute_workflow_eq P agents cprompt (_load_workflow_template P)
                  tid uid init st _ mock_template _ _ _ eq_refl Hloop) as Hexec.
    eexists _, _, _. split.
    + apply try_ok. eapply eq_trans; [eapply bind_ok; [exact Hexec|reflexivity]|].
      rewrite app_nil_r. reflexivity.
    + pose proof (steps_attempted_step step evd [] Hnone) as Hatt.
      rewrite app_nil_r in Hatt. rewrite ?app_nil_r, Hatt.
      simpl. repeat split.
  - pose proof (loop_cons_raise P agents cprompt step [] uid _ _ _ _ _ Hd) as Hloop.
    pose proof (execute_workflow_eq P agents cprompt (_load_workflow_template P)
                  tid uid init st _ mock_template _ _ _ eq_refl Hloop) as Hexec.
    eexists _, _, _. split.
    + apply try_ok. eapply eq_trans; [eapply bind_ok; [exact Hexec|reflexivity]|].
      rewrite app_nil_r. reflexivity.
    + pose proof (steps_attempted_step step evd [] Hnone) as Hatt.
      rewrite app_nil_r in Hatt. rewrite ?app_nil_r, Hatt.
      simpl. repeat split; intros; discriminate.
Qed.
End EndpointClaims.

(** ** More on the strategies *)

Lemma backend_calls_app (a b : list event) :
  backend_calls (a ++ b) = backend_calls a ++ backend_calls b.
Proof. apply omap_app. Qed.

Section StrategyExtras.
Variable P : Platform.
Variable agents : list (string * agent_obj).
Variable cprompt : string.
Variable mprompt : string.
Variable task : string.
Variable user_id : option string.
Variable session_id : value.
Variable context : option (gmap string value).
Variable sched : list nat.

Local Abbreviation run_task :=
  (execute_task P agents cprompt mprompt task user_id session_id context sched).
Local Abbreviation route := (route_task P agents mprompt task user_id context).

(** Whatever the registry holds, one [_call_agent] records one
    invocation, that of its arguments. *)
Lemma call_agent_invocation n t c (st st' : St P) evs r :
  _call_agent P agents cprompt n t user_id session_id c st = (st', evs, r) ->
  invocations evs = [(n, t, c)].
Proof.
  unfold _call_agent, bind, emit.
  destruct (dict_get n agents) as [obj|].
  - destruct (String.eqb n "experiment_conductor").
    + destruct obj;
        try (intros H; inversion H; subst; reflexivity).
      destruct (chat_returns P cprompt [Message "user" t] session_id user_id c st)
        as (st1 & ev1 & r1 & Hc & (Hi & _)).
      rewrite Hc. intros H. inversion H; subst.
      change (EvCallAgent n t c :: ev1 ++ [EvAgentReturn n r1])
        with ([EvCallAgent n t c] ++ ev1 ++ [EvAgentReturn n r1]).
      rewrite !invocations_app, Hi. reflexivity.
    + destruct (String.eqb n "data_analyst"); intros H; inversion H; subst; reflexivity.
  - intros H. inversion H; subst. reflexivity.
Qed.

(** X18. Under the single strategy exactly one agent is invoked: the first
    of the plan, or the default agent when the plan names none, with its
    routing entry or else the task as sub-task, and with the caller's
    context; the plan's other agents are not invoked. *)
Theorem single_strategy_invokes_one_agent (st st1 : St P) ev1 plan :
  route (tick st) = (st1, ev1, Ok (PlanObject plan)) ->
  default "single" (plan_strategy plan) = "single" ->
  exists st' evs out,
    run_task st = (st', evs, Ok out)
    /\ invocations evs
       = [ (match default [] (plan_agents plan) with
            | first :: _ => first
            | [] => "experiment_conductor"
            end,
            agent_task_for task (default ∅ (plan_routing plan))
              (match default [] (plan_agents plan) with
               | first :: _ => first
               | [] => "experiment_conductor"
               end),
            context) ].
Proof.
  intros Hr Hs.
  destruct (route_task_events _ _ _ _ _ _ _ _ _ _ Hr) as (Hi1 & _).
  destruct (run_inv (run_strategy P agents cprompt task user_id session_id context
                       (default ∅ (plan_routing plan))
                       (default "single" (plan_strategy plan)) sched
                       (default [] (plan_agents plan))) st1)
    as (st2 & ev2 & ran & Hrun).
  assert (Hi2 : invocations ev2
                = [ (match default [] (plan_agents plan) with
                     | first :: _ => first
                     | [] => "experiment_conductor"
                     end,
                     agent_task_for task (default ∅ (plan_routing plan))
                       (match default [] (plan_agents plan) with
                        | first :: _ => first
                        | [] => "experiment_conductor"
                        end),
                     context) ]).
  { pose proof Hrun as Hrun'. rewrite Hs in Hrun'. unfold run_strategy in Hrun'.
    simpl in Hrun'. unfold run_single, bind in Hrun'.
    match type of Hrun' with
    | context [_call_agent P agents cprompt ?n ?t user_id session_id ?c st1] =>
        destruct (_call_agent P agents cprompt n t user_id session_id c st1)
          as [[sa ea] ra] eqn:Hcall
    end.
    pose proof (call_agent_invocation _ _ _ _ _ _ _ Hcall) as Hinv.
    destruct ra; inversion Hrun'; subst; rewrite ?app_nil_r; exact Hinv. }
  destruct ran as [results|e].
  - destruct (run_inv (final_response P task context results) st2)
      as (st3 & ev3 & fin & Hf).
    destruct (final_response_events _ _ _ _ _ _ _ _ Hf) as (Hi3 & _).
    destruct fin as [final|e].
    + eexists _, _, _. split.
      { exact (execute_task_coordinated P agents cprompt mprompt task user_id
                 session_id context sched _ _ _ _ _ _ _ _ _ _ Hr Hrun Hf). }
      rewrite !invocations_app, Hi1, Hi2, Hi3. reflexivity.
    + eexists _, _, _. split.
      { exact (execute_task_final_raises P agents cprompt mprompt task user_id
                 session_id context sched _ _ _ _ _ _ _ _ _ _ Hr Hrun Hf). }
      rewrite !invocations_app, Hi1, Hi2, Hi3. reflexivity.
  - eexists _, _, _. split.
    { exact (execute_task_strategy_raises P agents cprompt mprompt task user_id
               session_id context sched _ _ _ _ _ _ _ Hr Hrun). }
    rewrite !invocations_app, Hi1, Hi2. reflexivity.
Qed.

Lemma run_scheduled_nothing {A} (order : list nat) : forall (slots : list (option A))
    (st : St P),
  run_scheduled P [] order slots st = (st, [], Ok slots).
Proof.
  induction order as [|i rest IH]; intros slots st; simpl; [reflexivity|apply IH].
Qed.

(** X19. A plan for the parallel or the sequential strategy that names no
    agent (an empty list, or no list at all) ends in the error outcome:
    nobody is invoked, no synthesis is asked for, and the lookup of the
    first result raises. *)
Theorem empty_plan_is_an_error (st st1 : St P) ev1 plan :
  route (tick st) = (st1, ev1, Ok (PlanObject plan)) ->
  plan_strategy plan = Some "parallel" \/ plan_strategy plan = Some "sequential" ->
  default [] (plan_agents plan) = [] ->
  run_task st
  = (st1, ev1, Ok (Failed coordination_apology "list index out of range" "error"))
  /\ invocations ev1 = []
  /\ synth_calls ev1 = [].
Proof.
  intros Hr Hs Hnone.
  destruct (route_task_events _ _ _ _ _ _ _ _ _ _ Hr) as (Hi1 & _ & Hs1).
  assert (Hrun : run_strategy P agents cprompt task user_id session_id context
                   (default ∅ (plan_routing plan))
                   (default "single" (plan_strategy plan)) sched
                   (default [] (plan_agents plan)) st1 = (st1, [], Ok [])).
  { rewrite Hnone. destruct Hs as [-> | ->]; simpl; unfold run_strategy; simpl.
    - unfold run_parallel, gather, bind. simpl.
      rewrite run_scheduled_nothing. reflexivity.
    - reflexivity. }
  pose proof (execute_task_final_raises P agents cprompt mprompt task user_id session_id
                context sched _ _ _ _ _ _ _ _ _ _ Hr Hrun
                (final_response_none P task context st1)) as H.
  rewrite !app_nil_r in H. repeat split; assumption.
Qed.
End StrategyExtras.

Lemma completion_trace_invocations names task_for ctx sched evs ws :
  completion_trace names task_for ctx sched evs ws ->
  invocations evs
  = omap (fun i => (fun n => (n, task_for n, ctx)) <$> names !! i) sched.
Proof.
  induction 1 as [|i n rest inner r evs ws Hn Hin _ IH].
  - reflexivity.
  - destruct (call_events_projections n (task_for n) ctx inner r Hin) as (Hi & _).
    rewrite invocations_app, Hi, IH. simpl. rewrite Hn. reflexivity.
Qed.

Lemma omap_lookup_seq {A B} (f : A -> B) (l : list A) : forall pre,
  omap (fun i => f <$> (pre ++ l) !! i) (seq (length pre) (length l)) = map f l.
Proof.
  induction l as [|x l IH]; intros pre; [reflexivity|].
  simpl. rewrite list_lookup_middle by reflexivity. simpl. f_equal.
  specialize (IH (pre ++ [x])).
  rewrite length_app, Nat.add_1_r, <- app_assoc in IH. exact IH.
Qed.

Section ParallelExtras.
Variable P : Platform.
Variable agents : list (string * agent_obj).
Variable cprompt : string.
Variable mprompt : string.
Variable task : string.
Variable user_id : option string.
Variable session_id : value.
Variable context : option (gmap string value).
Variable sched : list nat.

Local Abbreviation run_task :=
  (execute_task P agents cprompt mprompt task user_id session_id context sched).
Local Abbreviation route := (route_task P agents mprompt task user_id context).

(** X20. Under the parallel strategy every entry of the plan's agent list
    is invoked exactly once, repeated names once per occurrence, each with
    its routing entry or else the task as sub-task and each with the
    caller's own context: no agent sees another agent's output. *)
Theorem parallel_invokes_every_agent (st st1 : St P) ev1 plan :
  wired agents = true ->
  route (tick st) = (st1, ev1, Ok (PlanObject plan)) ->
  plan_strategy plan = Some "parallel" ->
  exists st' evs out,
    run_task st = (st', evs, Ok out)
    /\ invocations evs
       ≡ₚ map (fun n => (n, agent_task_for task (default ∅ (plan_routing plan)) n, context))
            (default [] (plan_agents plan)).
Proof.
  intros Hw Hr Hs.
  destruct (route_task_events _ _ _ _ _ _ _ _ _ _ Hr) as (Hi1 & _).
  set (names := default [] (plan_agents plan)).
  set (agent_tasks := default ∅ (plan_routing plan)).
  destruct (run_inv (run_strategy P agents cprompt task user_id session_id context
                       agent_tasks (default "single" (plan_strategy plan)) sched names)
              st1)
    as (st2 & ev2 & ran & Hrun).
  assert (Hi2 : invocations ev2
                ≡ₚ map (fun n => (n, agent_task_for task agent_tasks n, context)) names).
  { pose proof Hrun as Hrun'. rewrite Hs in Hrun'. simpl in Hrun'.
    unfold run_strategy in Hrun'. simpl in Hrun'.
    unfold run_parallel, gather in Hrun'.
    change (map (fun agent_name => _call_agent P agents cprompt agent_name
                   (agent_task_for task agent_tasks agent_name)
                   user_id session_id context) names)
      with (map (parallel_call P agents cprompt task user_id session_id context
                   agent_tasks) names) in Hrun'.
    rewrite length_map in Hrun'.
    pose proof (completion_order_permutation sched (length names)) as Hperm.
    assert (Hall : Forall (fun i => (i < length names)%nat)
                     (completion_order sched (length names))).
    { apply Forall_forall. intros i Hi. rewrite Hperm in Hi.
      apply elem_of_seq in Hi. lia. }
    destruct (run_scheduled_wired P agents cprompt task user_id session_id context
                agent_tasks names Hw _ (replicate (length names) None) st1 Hall)
      as (sa & ea & ws & Hsched & Htr & _).
    pose proof (completion_trace_invocations _ _ _ _ _ _ Htr) as Hinv.
    unfold bind in Hrun'. rewrite Hsched in Hrun'. simpl in Hrun'.
    inversion Hrun' as [[Hst Hev Hres]].
    rewrite !app_nil_r, Hinv.
    rewrite <- (omap_lookup_seq
                  (fun n => (n, agent_task_for task agent_tasks n, context)) names []).
    apply omap_Permutation. exact Hperm. }
  destruct ran as [results|e].
  - destruct (run_inv (final_response P task context results) st2)
      as (st3 & ev3 & fin & Hf).
    destruct (final_response_events _ _ _ _ _ _ _ _ Hf) as (Hi3 & _).
    destruct fin as [final|e].
    + eexists _, _, _. split.
      { exact (execute_task_coordinated P agents cprompt mprompt task user_id
                 session_id context sched _ _ _ _ _ _ _ _ _ _ Hr Hrun Hf). }
      rewrite !invocations_app, Hi1, Hi3, app_nil_r. exact Hi2.
    + eexists _, _, _. split.
      { exact (execute_task_final_raises P agents cprompt mprompt task user_id
                 session_id context sched _ _ _ _ _ _ _ _ _ _ Hr Hrun Hf). }
      rewrite !invocations_app, Hi1, Hi3, app_nil_r. exact Hi2.
  - eexists _, _, _. split.
    { exact (execute_task_strategy_raises P agents cprompt mprompt task user_id
               session_id context sched _ _ _ _ _ _ _ Hr Hrun). }
    rewrite !invocations_app, Hi1. exact Hi2.
Qed.
End ParallelExtras.

(** ** What the prompts carry *)

Lemma str_app_assoc (a b c : string) : (a +:+ b) +:+ c = a +:+ b +:+ c.
Proof.
  induction a as [|x a IH]; [reflexivity|].
  change (String x ((a +:+ b) +:+ c) = String x (a +:+ b +:+ c)).
  rewrite IH. reflexivity.
Qed.

Lemma str_app_nil_r (a : string) : a +:+ "" = a.
Proof.
  induction a as [|x a IH]; [reflexivity|].
  change (String x (a +:+ "") = String x a). rewrite IH. reflexivity.
Qed.

Lemma occurs_here (s rest : string) : occurs_in s (s +:+ rest).
Proof. exists "", rest. reflexivity. Qed.

Lemma occurs_refl (s : string) : occurs_in s s.
Proof. exists "", "". symmetry. exact (str_app_nil_r s). Qed.

Lemma occurs_skip (a s t : string) : occurs_in s t -> occurs_in s (a +:+ t).
Proof.
  intros (b & c & ->). exists (a +:+ b), c. symmetry. apply str_app_assoc.
Qed.

Lemma occurs_left (s t u : string) : occurs_in s t -> occurs_in s (t +:+ u).
Proof.
  intros (b & c & ->). exists b, (c +:+ u).
  rewrite !str_app_assoc. reflexivity.
Qed.

Lemma occurs_join (sep x : string) (xs : list string) :
  x ∈ xs -> occurs_in x (join sep xs).
Proof.
  induction xs as [|y [|z rest] IH]; intros Hin.
  - inversion Hin.
  - apply list_elem_of_singleton in Hin as ->. apply occurs_refl.
  - apply elem_of_cons in Hin as [->|Hin].
    + apply occurs_here.
    + change (join sep (y :: z :: rest)) with (y +:+ sep +:+ join sep (z :: rest)).
      apply occurs_skip, occurs_skip, IH. exact Hin.
Qed.

(** X21. The request for a synthesis carries the caller's task and, for
    every result in [agent_results], the agent's name in bold followed by
    its response text: no result is left out of what the synthesizer
    reads. *)
Theorem synthesis_prompt_carries_every_response (task : string)
    (agent_results : list (string * AgentResult)) :
  occurs_in ("ORIGINAL TASK: " +:+ task) (synthesis_prompt task agent_results)
  /\ forall n r, (n, r) ∈ agent_results ->
       occurs_in ("**" +:+ n +:+ "**: " +:+ response r)
                 (synthesis_prompt task agent_results).
Proof.
  split.
  - unfold synthesis_prompt. do 3 apply occurs_skip.
    rewrite <- str_app_assoc. apply occurs_here.
  - intros n r Hin. unfold synthesis_prompt. cbv zeta. do 9 apply occurs_skip.
    apply occurs_left, occurs_join.
    apply list_elem_of_fmap. exists (n, r). split; [reflexivity|exact Hin].
Qed.


(** ** The disclaimer of an explanation *)

Lemma prefix_refl (s : string) : String.prefix s s = true.
Proof.
  induction s as [|x s IH]; [reflexivity|].
  simpl. destruct (Ascii.ascii_dec x x) as [_|Hne]; [exact IH|contradiction].
Qed.

Lemma contains_refl (s : string) : contains s s = true.
Proof.
  pose proof (prefix_refl s) as H.
  destruct s; unfold contains; rewrite H; reflexivity.
Qed.

Lemma contains_skip (a n h : string) : contains n h = true -> contains n (a +:+ h) = true.
Proof.
  intros H. induction a as [|x a IH]; [exact H|].
  change (String x a +:+ h) with (String x (a +:+ h)).
  change (contains n (String x (a +:+ h)))
    with (if String.prefix n (String x (a +:+ h)) then true else contains n (a +:+ h)).
  rewrite IH. destruct (String.prefix n (String x (a +:+ h))); reflexivity.
Qed.

(** X23. [explain_experiment] always returns, and what it returns
    contains the experimental disclaimer, whatever the backend answered
    and also when the conductor fell back on its safe text or on its
    apology. *)
Theorem explanation_has_the_disclaimer (P : Platform) (cprompt experiment_type : string)
    (st : St P) :
  exists st' evs explanation,
    explain_experiment P cprompt experiment_type st = (st', evs, Ok explanation)
    /\ contains REQUIRED_DISCLAIMER_experimental explanation = true.
Proof.
  unfold explain_experiment. cbv zeta.
  match goal with
  | |- context [chat P cprompt ?m ?s ?u ?md] =>
      destruct (chat_returns P cprompt m s u md st) as (st1 & ev1 & r1 & Hc & _)
  end.
  unfold bind. rewrite Hc. unfold ret.
  eexists _, _, _. split; [reflexivity|].
  destruct (contains REQUIRED_DISCLAIMER_experimental (response r1)) eqn:Hin.
  - exact Hin.
  - do 3 apply contains_skip. apply contains_refl.
Qed.

(** ** The Gemini conversion *)




Lemma convert_loop_head (msgs : list message) : forall s h c,
  match h with [] => True | t :: _ => turn_role t = "model" end ->
  match snd (fst (convert_loop msgs s h c)) with
  | [] => True
  | t :: _ => turn_role t = "model"
  end.
Proof.
  induction msgs as [|m msgs IH]; intros s h c Hh; [exact Hh|].
  simpl.
  destruct (String.eqb (role m) "system"); [apply IH; exact Hh|].
  destruct (String.eqb (role m) "user").
  { apply IH. destruct h as [|t h]; [exact I|].
    rewrite last_cons. destruct (last h) as [t'|];
      [destruct (String.eqb (turn_role t') "model")|
       destruct (String.eqb (turn_role t) "model")]; exact Hh. }
  destruct (String.eqb (role m) "assistant"); apply IH; [|exact Hh].
  destruct h as [|t h]; [reflexivity|exact Hh].
Qed.

Lemma convert_loop_unanswered (msgs : list message) : forall s c,
  Forall (fun m => role m <> "assistant") msgs ->
  convert_loop msgs s [] c
  = (match last (filter (fun m => role m = "system") msgs) with
     | Some m => Some (content m)
     | None => s
     end,
     [],
     match last (filter (fun m => role m = "user") msgs) with
     | Some m => Some (content m)
     | None => c
     end).
Proof.
  induction msgs as [|m msgs IH]; intros s c Hall; [reflexivity|].
  apply Forall_cons in Hall as [Hm Hall].
  simpl convert_loop.
  destruct (String.eqb_spec (role m) "system") as [Hs|Hs].
  { rewrite (IH _ _ Hall).
    rewrite (filter_cons_True (fun m => role m = "system") m msgs Hs), last_cons.
    rewrite (filter_cons_False (fun m => role m = "user") m msgs)
      by (rewrite Hs; discriminate).
    destruct (last (filter (fun m0 => role m0 = "system") msgs)); reflexivity. }
  rewrite (filter_cons_False (fun m => role m = "system") m msgs Hs).
  destruct (String.eqb_spec (role m) "user") as [Hu|Hu].
  { simpl. rewrite (IH _ _ Hall).
    rewrite (filter_cons_True (fun m => role m = "user") m msgs Hu), last_cons.
    destruct (last (filter (fun m0 => role m0 = "user") msgs)); reflexivity. }
  rewrite (filter_cons_False (fun m => role m = "user") m msgs Hu).
  destruct (String.eqb_spec (role m) "assistant") as [Ha|_]; [contradiction|].
  apply IH. exact Hall.
Qed.

(** X24. Until the assistant has spoken the Gemini history stays empty:
    of a conversation without an assistant message only the content of the
    last user message is sent, earlier user messages are dropped, and the
    system instruction is the content of the last system message. *)
Theorem gemini_unanswered_conversation (msgs : list message) :
  Forall (fun m => role m <> "assistant") msgs ->
  _convert_messages msgs
  = (content <$> last (filter (fun m => role m = "system") msgs),
     [],
     content <$> last (filter (fun m => role m = "user") msgs)).
Proof.
  intros Hall. unfold _convert_messages.
  rewrite (convert_loop_unanswered msgs None None Hall).
  destruct (last (filter (fun m => role m = "system") msgs));
    destruct (last (filter (fun m => role m = "user") msgs)); reflexivity.
Qed.

(** X25. The history is empty or starts with a turn of the model: it
    never starts with a user turn, a user message met while the history
    is empty not being appended. *)
Theorem gemini_history_starts_with_the_model (msgs : list message) :
  match snd (fst (_convert_messages msgs)) with
  | [] => True
  | t :: _ => turn_role t = "model"
  end.
Proof. apply convert_loop_head. exact I. Qed.


(** ** The rate limiter *)

Section RateLimitClaims.
Context {T : Type}.
Variable in_window : T -> T -> bool.
Variable now : T.
Variable client_id : string.
Variable rate_limit_store : gmap string (list T).

Local Abbreviation kept :=
  (filter (fun ts => Is_true (in_window now ts))
     (default [] (rate_limit_store !! client_id))).

(** X27. A request is let through exactly when fewer than
    [RATE_LIMIT_MAX_REQUESTS] of the client's earlier requests are still
    in the window. Either way the entries that left the window are
    dropped; the request is recorded, last, only when it is let through;
    the other clients' entries are not touched. *)
Theorem rate_limit_decision :
  (snd (check_rate_limit in_window now client_id rate_limit_store) = true
   <-> (length kept < RATE_LIMIT_MAX_REQUESTS)%nat)
  /\ fst (check_rate_limit in_window now client_id rate_limit_store) !! client_id
     = Some (if snd (check_rate_limit in_window now client_id rate_limit_store)
             then kept ++ [now] else kept)
  /\ forall other, other <> client_id ->
       fst (check_rate_limit in_window now client_id rate_limit_store) !! other
       = rate_limit_store !! other.
Proof.
  unfold check_rate_limit.
  destruct (Nat.leb_spec RATE_LIMIT_MAX_REQUESTS (length kept)) as [Hfull|Hroom]; simpl.
  - split; [split; [discriminate|lia]|]. split.
    + apply lookup_insert_eq.
    + intros other Hne. apply lookup_insert_ne. congruence.
  - split; [split; [intros _; exact Hroom|reflexivity]|]. split.
    + apply lookup_insert_eq.
    + intros other Hne. rewrite !lookup_insert_ne by congruence. reflexivity.
Qed.

(** X28. No client ever has more than [RATE_LIMIT_MAX_REQUESTS] requests
    on record: a store within the bound stays within it. *)
Theorem rate_limit_store_is_bounded :
  (forall c l, rate_limit_store !! c = Some l ->
     (length l <= RATE_LIMIT_MAX_REQUESTS)%nat) ->
  forall c l,
    fst (check_rate_limit in_window now client_id rate_limit_store) !! c = Some l ->
    (length l <= RATE_LIMIT_MAX_REQUESTS)%nat.
Proof.
  intros Hb c l.
  assert (Hk : (length kept <= RATE_LIMIT_MAX_REQUESTS)%nat).
  { etransitivity; [apply length_filter|].
    destruct (rate_limit_store !! client_id) as [old|] eqn:Hold; simpl.
    - exact (Hb _ _ Hold).
    - lia. }
  unfold check_rate_limit.
  destruct (Nat.leb_spec RATE_LIMIT_MAX_REQUESTS (length kept)) as [Hfull|Hroom]; simpl.
  - destruct (decide (c = client_id)) as [->|Hne].
    + rewrite lookup_insert_eq. intros [= <-]. exact Hk.
    + rewrite lookup_insert_ne by congruence. apply Hb.
  - destruct (decide (c = client_id)) as [->|Hne].
    + rewrite lookup_insert_eq. intros [= <-]. rewrite length_app. simpl. lia.
    + rewrite !lookup_insert_ne by congruence. apply Hb.
Qed.
End RateLimitClaims.

(** ** What the conductor lets through *)

Lemma filter_none {A} (f : A -> bool) (l : list A) :
  Forall (fun x => f x = false) l -> filter (fun x => Is_true (f x)) l = [].
Proof.
  induction 1 as [|x l Hx _ IH]; [reflexivity|].
  rewrite filter_cons_False; [exact IH|]. rewrite Hx. exact id.
Qed.

(** X29. A backend text that no prohibited pattern matches is handed on
    as it is, with [guardrails_passed] true and no violation, whether it
    holds leading language or not: [chat] validates under the class name
    ["ExperimentConductor"], and the leading phrases are looked for only
    under the registry name ["experiment_conductor"], under which the
    same text gets one violation per phrase found. *)
Theorem chat_does_not_look_for_leading_language (P : Platform) (cprompt : string)
    msgs sid uid md (st : St P) w rep :
  chat_completion P (conductor_request cprompt msgs) (world P (tick st)) = (w, Ok rep) ->
  Forall (fun p => re_search P p (reply_content rep) = false) PROHIBITED_PATTERNS ->
  exists st' evs r,
    chat P cprompt msgs sid uid md st = (st', evs, Ok r)
    /\ response r = reply_content rep
    /\ metadata r = Some (ChatMetadata sid (Some true) (Some []))
    /\ validate_agent_response P (reply_content rep) "experiment_conductor" VNone
       = map (fun p => "Response contains leading language: " +:+ p)
           (filter (fun p => Is_true (re_search P p (reply_content rep)))
              leading_phrases).
Proof.
  intros Hc Hclean. apply filter_none in Hclean.
  unfold chat, conductor_request in *.
  eexists _, _, _. split; [|split; [|split]].
  - eapply eq_trans.
    + eapply bind_ok; [apply now_eq|].
      apply try_ok. eapply bind_ok.
      * unfold llm. rewrite Hc. reflexivity.
      * eapply bind_ok; [reflexivity|].
        eapply bind_ok; [apply now_eq|reflexivity].
    + simpl. reflexivity.
  - simpl. unfold validate_agent_response. simpl. rewrite Hclean. reflexivity.
  - simpl. unfold validate_agent_response. simpl. rewrite Hclean. reflexivity.
  - unfold validate_agent_response. simpl. rewrite Hclean. reflexivity.
Qed.

(** ** Further runs on the scripted platform *)

Lemma routing_failure_is_an_error_outcome_witness :
  exists st' evs,
    run_demo [] [] = (st', evs, Ok (Failed coordination_apology
                                      "backend unreachable" "error"))
    /\ invocations evs = []
    /\ total_coordinations demo st' = 0%nat.
Proof.
  destruct (routing_failure_is_an_error_outcome demo main_agents "" "" "hello" None
              VNone None [] (start demo []) [] unreachable eq_refl)
    as (Hrun & Hcount).
  eexists _, _. split; [exact Hrun|]. split; [reflexivity|exact Hcount].
Defined.

Lemma next_action_from_zero_witness :
  _get_next_action (VStr "card-prediction") 2 = Ok "card_reveal"
  /\ _get_next_action (VStr "card-prediction") 5 = Ok "experiment_complete"
  /\ _get_next_action (VStr "ganzfeld") 0 = Ok "experiment_complete".
Proof.
  split; [|split].
  - exact (next_action_from_zero (VStr "card-prediction") 2 eq_refl ltac:(lia)).
  - exact (next_action_from_zero (VStr "card-prediction") 5 eq_refl ltac:(lia)).
  - exact (next_action_from_zero (VStr "ganzfeld") 0 eq_refl ltac:(lia)).
Defined.


Lemma log_length_tells_the_status_witness :
  exists st' evs run,
    execute_workflow_from (scripted loads_nothing) main_agents "" three_steps
      "template" "user" None (start (scripted loads_nothing) [])
    = (st', evs, Ok run)
    /\ run_status run = "failed"
    /\ steps_completed run = 1%nat
    /\ length (execution_log run) = 2%nat.
Proof.
  destruct (log_length_tells_the_status (scripted loads_nothing) main_agents ""
              three_steps "template" "user" None (start (scripted loads_nothing) [])
              [] _ eq_refl)
    as (st' & evs & run & Hrun & _ & Hlen).
  exists st', evs, run. split; [exact Hrun|].
  assert (Hst : run_status run = "failed" /\ steps_completed run = 1%nat).
  { vm_compute in Hrun. inversion Hrun. split; reflexivity. }
  destruct Hst as [Hfailed Hdone].
  rewrite Hfailed, Hdone in Hlen. repeat split; assumption.
Defined.

Lemma collected_data_keeps_its_keys_witness :
  exists st' evs run,
    execute_workflow_from (scripted loads_nothing) main_agents "" three_steps
      "template" "user" (Some {[ "session_id" := VStr "s1" ]})
      (start (scripted loads_nothing) [])
    = (st', evs, Ok run)
    /\ is_Some (collected_data run !! "session_id").
Proof.
  destruct (collected_data_keeps_its_keys (scripted loads_nothing) main_agents ""
              three_steps "template" "user" (Some {[ "session_id" := VStr "s1" ]})
              (start (scripted loads_nothing) []) [] _ eq_refl)
    as (st' & evs & run & Hrun & Hkeys).
  exists st', evs, run. split; [exact Hrun|].
  apply Hkeys. exists (VStr "s1"). reflexivity.
Defined.


Lemma log_entries_per_attempt_witness :
  exists st' evs run,
    execute_workflow_from (scripted loads_nothing) main_agents "" three_steps
      "template" "user" None (start (scripted loads_nothing) [])
    = (st', evs, Ok run)
    /\ Forall2 logged [capture_step; analyst_guidance_step] (execution_log run).
Proof.
  destruct (log_entries_per_attempt (scripted loads_nothing) main_agents ""
              three_steps "template" "user" None (start (scripted loads_nothing) [])
              [] _ eq_refl)
    as (st' & evs & run & Hrun & _ & Hlog & _).
  exists st', evs, run. split; [exact Hrun|].
  assert (Hsteps : steps_attempted evs = [capture_step; analyst_guidance_step]).
  { vm_compute in Hrun. inversion Hrun. reflexivity. }
  rewrite Hsteps in Hlog. exact Hlog.
Defined.


Lemma agent_chat_unknown_agent_is_500_witness :
  agent_chat demo ""
    (mkChatRequest "data_analyst" None None [Message "user" "hello"] None)
    (start demo [says "never asked"])
  = (start demo [says "never asked"], [],
     Ok (HTTPError 500 "An error occurred processing your request")).
Proof.
  apply (agent_chat_unknown_agent_is_500 demo ""
           (mkChatRequest "data_analyst" None None [Message "user" "hello"] None)
           (start demo [says "never asked"])).
  - intros m Hm. vm_compute in Hm. injection Hm as <-. reflexivity.
  - discriminate.
Defined.

Lemma workflow_endpoint_wants_the_key_witness :
  execute_workflow_endpoint demo main_agents "" "s3cret" (Some "guess")
    "template" "user" None (start demo [])
  = (start demo [], [], Ok (HTTPError 403 "Invalid admin API key")).
Proof.
  apply (workflow_endpoint_wants_the_key demo main_agents "" "s3cret" (Some "guess")
           "template" "user" None (start demo [])); discriminate.
Defined.

Lemma workflow_endpoint_always_runs_witness :
  exists st' evs run,
    execute_workflow_endpoint demo main_agents "" "" None "template" "user" None
      (start demo [says "Welcome."])
    = (st', evs, Ok (Respond run))
    /\ length (execution_log run) = 1%nat.
Proof.
  destruct (workflow_endpoint_always_runs demo main_agents "" "" None "template" "user"
              None (start demo [says "Welcome."]) eq_refl)
    as (st' & evs & run & Hrun & _ & Hlen & _).
  exists st', evs, run. split; assumption.
Defined.

Lemma single_strategy_invokes_one_agent_witness :
  exists st' evs out,
    execute_task demo_more main_agents "" "" "hello" None VNone None []
      (start demo_more
         [says (plan_text "single" ["data_analyst"; "experiment_conductor"])])
    = (st', evs, Ok out)
    /\ invocations evs = [("data_analyst", "hello", None)].
Proof.
  exact (single_strategy_invokes_one_agent demo_more main_agents "" "" "hello" None VNone
           None []
           (start demo_more
              [says (plan_text "single" ["data_analyst"; "experiment_conductor"])])
           _ _ (plan_of "single" ["data_analyst"; "experiment_conductor"])
           eq_refl eq_refl).
Defined.

Lemma empty_plan_is_an_error_witness :
  exists st' evs,
    execute_task demo_more main_agents "" "" "hello" None VNone None []
      (start demo_more [says (plan_text "parallel" [])])
    = (st', evs, Ok (Failed coordination_apology "list index out of range" "error"))
    /\ invocations evs = [].
Proof.
  destruct (empty_plan_is_an_error demo_more main_agents "" "" "hello" None VNone None []
              (start demo_more [says (plan_text "parallel" [])])
              _ _ (plan_of "parallel" []) eq_refl (or_introl eq_refl) eq_refl)
    as (Hrun & Hinv & _).
  eexists _, _. split; [exact Hrun|exact Hinv].
Defined.

Lemma parallel_invokes_every_agent_witness :
  exists st' evs out,
    run_demo [says fan_out; says "Welcome."; says "Merged."] [2; 1; 0]%nat
    = (st', evs, Ok out)
    /\ invocations evs
       ≡ₚ [("experiment_conductor", "hello", None); ("ghost", "hello", None);
           ("data_analyst", "hello", None)].
Proof.
  exact (parallel_invokes_every_agent demo main_agents "" "" "hello" None VNone None
           [2; 1; 0]%nat
           (start demo [says fan_out; says "Welcome."; says "Merged."])
           _ _ (plan_of "parallel" ["experiment_conductor"; "ghost"; "data_analyst"])
           eq_refl eq_refl eq_refl).
Defined.

Lemma gemini_unanswered_conversation_witness :
  _convert_messages
    [Message "system" "Be brief."; Message "user" "first"; Message "user" "second"]
  = (Some "Be brief.", [], Some "second").
Proof.
  exact (gemini_unanswered_conversation
           [Message "system" "Be brief."; Message "user" "first";
            Message "user" "second"]
           ltac:(repeat constructor; discriminate)).
Defined.


Lemma rate_limit_store_is_bounded_witness :
  fst (check_rate_limit within_window 170 "10.0.0.7" {[ "10.0.0.7" := [90; 100; 130] ]})
    !! "10.0.0.7" = Some [130; 170]
  /\ (length [130; 170] <= RATE_LIMIT_MAX_REQUESTS)%nat.
Proof.
  assert (Hrec : fst (check_rate_limit within_window 170 "10.0.0.7"
                        {[ "10.0.0.7" := [90; 100; 130] ]})
                   !! "10.0.0.7" = Some [130; 170]).
  { vm_compute. reflexivity. }
  split; [exact Hrec|].
  refine (rate_limit_store_is_bounded within_window 170 "10.0.0.7"
            {[ "10.0.0.7" := [90; 100; 130] ]} _ "10.0.0.7" [130; 170] Hrec).
  intros c l Hl. apply lookup_singleton_Some in Hl as [_ <-].
  unfold RATE_LIMIT_MAX_REQUESTS. simpl. lia.
Defined.

Lemma chat_does_not_look_for_leading_language_witness :
  exists st' evs r,
    chat watchful "" [Message "user" "what now"] VNone None None
      (start watchful [says "you should see a lighthouse"])
    = (st', evs, Ok r)
    /\ response r = "you should see a lighthouse"
    /\ validate_agent_response watchful "you should see a lighthouse"
         "experiment_conductor" VNone
       = ["Response contains leading language: you should see"].
Proof.
  destruct (chat_does_not_look_for_leading_language watchful ""
              [Message "user" "what now"] VNone None None
              (start watchful [says "you should see a lighthouse"])
              [] (Reply "you should see a lighthouse" 10 "gemini-2.0-flash")
              eq_refl ltac:(repeat constructor))
    as (st' & evs & r & Hrun & Hresp & _ & Hfound).
  exists st', evs, r. split; [exact Hrun|]. split; [exact Hresp|].
  simpl in Hfound. rewrite Hfound. vm_compute. reflexivity.
Defined.
